(** * performer_selector: a shallow embedding of [main.py]

    The development follows the layout of the Python module:

    - Python values used by the module: [str] as a sequence of Unicode code
      points, the exceptions that the module raises or catches, the
      operating-system calls it makes ([os.path.isdir], [os.listdir],
      [os.readlink], [os.path.join]) and the POSIX flavour of [pathlib].
    - a small state-and-exception monad: the state holds the selector
      object and what has been printed, the outcome of a call is a returned
      value, a raised exception, or a call still waiting at the prompt.
    - the class [PerformerSelector], method by method, and the entry
      point [main].
    - the properties of the methods, first one by one, then of scanning
      and choosing together. *)

From Stdlib Require Import NArith ZArith String Ascii Lia.
From stdpp Require Import base option list gmap.

Local Open Scope N_scope.

(** ** Python strings *)

(** A Python [str] is a sequence of code points. *)
Abbreviation pychar := N (only parsing).
Abbreviation pystr := (list N) (only parsing).

(** A character literal of the source, as a code point. *)
Definition chr (a : ascii) : pychar := N_of_ascii a.
Arguments chr a%_char.

(** A string literal of the source, as a [str]. *)
Definition py (s : string) : pystr := chr <$> list_ascii_of_string s.
Arguments py s%_string.

(** [str.isspace] on one character (CPython's [_PyUnicode_IsWhitespace]). *)
Definition isspace (c : pychar) : bool :=
  ((9 <=? c) && (c <=? 13)) || ((28 <=? c) && (c <=? 32))
  || (c =? 133) || (c =? 160) || (c =? 5760)
  || ((8192 <=? c) && (c <=? 8202))
  || (c =? 8232) || (c =? 8233) || (c =? 8239) || (c =? 8287)
  || (c =? 12288).

Fixpoint lstrip (s : pystr) : pystr :=
  match s with
  | c :: s' => if isspace c then lstrip s' else s
  | [] => []
  end.

Definition rstrip (s : pystr) : pystr := reverse (lstrip (reverse s)).

(** [s.strip()] *)
Definition strip (s : pystr) : pystr := rstrip (lstrip s).

(** [bool(s)] for a [str]: the empty string is falsy. *)
Definition truthy (s : pystr) : bool :=
  match s with [] => false | _ :: _ => true end.

(** [string.ascii_letters], [string.digits] *)
Definition ascii_letters : pystr :=
  py "abcdefghijklmnopqrstuvwxyzABCDEFGHIJKLMNOPQRSTUVWXYZ".
Definition digits : pystr := py "0123456789".

(** ** Exceptions *)

Inductive exn :=
| ValueError (msg : pystr)
| PermissionError (msg : pystr)
| OSError (msg : pystr)
| KeyboardInterrupt
| EOFError
| SystemExit (code : Z).

(** The classes named in the [except] clauses of the module. *)
Inductive exn_class :=
| cls_PermissionError
| cls_OSError
| cls_KeyboardInterrupt.

(** [isinstance(e, c)]: [PermissionError] is a subclass of [OSError];
    [ValueError] is not. *)
Definition isinstance (e : exn) (c : exn_class) : bool :=
  match e, c with
  | PermissionError _, (cls_PermissionError | cls_OSError) => true
  | OSError _, cls_OSError => true
  | KeyboardInterrupt, cls_KeyboardInterrupt => true
  | _, _ => false
  end.

(** [str(e)] as used by the f-string of the [OSError] handler. *)
Definition exn_str (e : exn) : pystr :=
  match e with
  | ValueError m | PermissionError m | OSError m => m
  | KeyboardInterrupt => []
  | EOFError => []
  | SystemExit _ => []
  end.

(** ** The selector object and the monad of its methods *)

Record PerformerSelector := {
  performers_root_directories : list pystr;
  return_full_path : bool;
  allowed_characters : gset N;
  performer_length_limit : Z
}.

(** What a run can touch: the selector object and standard output (one
    element per [print] call). *)
Record State := {
  self : PerformerSelector;
  stdout : list pystr
}.

Inductive outcome (A : Type) :=
| Ret (a : A)
| Raise (e : exn)
| Blocked.
Arguments Ret {A} a.
Arguments Raise {A} e.
Arguments Blocked {A}.

Definition M (A : Type) : Type := State -> outcome A * State.

Definition ret {A} (a : A) : M A := fun st => (Ret a, st).

Definition bind {A B} (m : M A) (k : A -> M B) : M B :=
  fun st =>
    match m st with
    | (Ret a, st') => k a st'
    | (Raise e, st') => (Raise e, st')
    | (Blocked, st') => (Blocked, st')
    end.

Definition raise {A} (e : exn) : M A := fun st => (Raise e, st).

Definition blocked {A} : M A := fun st => (Blocked, st).

(** The state after one more line has been printed. *)
Definition say (line : pystr) (st : State) : State :=
  {| self := self st; stdout := stdout st ++ [line] |}.

Definition print (line : pystr) : M unit :=
  fun st => (Ret tt, say line st).

(** Reading an attribute of [self]. *)
Definition getattr {A} (field : PerformerSelector -> A) : M A :=
  fun st => (Ret (field (self st)), st).

(** [exit(code)] raises [SystemExit]. *)
Definition exit {A} (code : Z) : M A := raise (SystemExit code).

Declare Scope py_scope.
Delimit Scope py_scope with py.
Notation "x <- m ;; k" := (bind m (fun x => k))
  (at level 100, m at next level, right associativity) : py_scope.
Notation "m ;;; k" := (bind m (fun _ => k))
  (at level 100, right associativity) : py_scope.

(** [try: body except c1: h1 except c2: h2 ...]: the first clause whose
    class the exception is an instance of handles it; an exception no
    clause matches propagates. *)
Fixpoint find_handler {A} (e : exn) (hs : list (exn_class * (exn -> M A)))
  : option (M A) :=
  match hs with
  | [] => None
  | (c, h) :: hs' => if isinstance e c then Some (h e) else find_handler e hs'
  end.

Definition try_except {A} (body : M A) (hs : list (exn_class * (exn -> M A)))
  : M A :=
  fun st =>
    match body st with
    | (Raise e, st') =>
        match find_handler e hs with
        | Some h => h st'
        | None => (Raise e, st')
        end
    | r => r
    end.

(** ** The operating system *)

(** Result of a system call: a value, or one of the two kinds of [OSError]
    the module tells apart. *)
Inductive os_result (A : Type) :=
| OsOk (a : A)
| OsPermissionDenied (msg : pystr)
| OsFailure (msg : pystr).
Arguments OsOk {A} a.
Arguments OsPermissionDenied {A} msg.
Arguments OsFailure {A} msg.

Record FileSystem := {
  os_path_isdir : pystr -> bool;
  os_listdir : pystr -> os_result (list pystr);
  os_readlink : pystr -> os_result pystr
}.

Definition os_call {A} (r : os_result A) : M A :=
  match r with
  | OsOk a => ret a
  | OsPermissionDenied m => raise (PermissionError m)
  | OsFailure m => raise (OSError m)
  end.

Definition sep : pychar := chr "/".

Definition startswith_sep (s : pystr) : bool :=
  match s with c :: _ => c =? sep | [] => false end.

Definition endswith_sep (s : pystr) : bool :=
  match last s with Some c => c =? sep | None => false end.

(** [os.path.join(a, b)] of [posixpath]. *)
Definition os_path_join (a b : pystr) : pystr :=
  if startswith_sep b then b
  else if negb (truthy a) || endswith_sep a then a ++ b
  else a ++ sep :: b.

(** ** pathlib, POSIX flavour *)

(** A path object keeps the strings it was built from and parses them when
    a property is asked for. *)
Record Path := { _raw_paths : list pystr }.

(** [posixpath.join(a, *p)] *)
Definition posixpath_join (paths : list pystr) : pystr :=
  match paths with
  | [] => []
  | a :: p => foldl os_path_join a p
  end.

(** [posixpath.splitroot(p)], without the drive, which is always empty. *)
Definition splitroot (p : pystr) : pystr * pystr :=
  match p with
  | c1 :: p1 =>
      if c1 =? sep then
        match p1 with
        | c2 :: p2 =>
            if c2 =? sep then
              if startswith_sep p2 then ([sep], p1) else ([sep; sep], p2)
            else ([sep], p1)
        | [] => ([sep], p1)
        end
      else ([], p)
  | [] => ([], p)
  end.

(** [s.split("/")] *)
Fixpoint split (s : pystr) : list pystr :=
  match s with
  | [] => [[]]
  | c :: s' =>
      if c =? sep then [] :: split s'
      else match split s' with
           | x :: xs => (c :: x) :: xs
           | [] => [[c]]
           end
  end.

(** ["/".join(parts)] *)
Fixpoint sep_join (parts : list pystr) : pystr :=
  match parts with
  | [] => []
  | [x] => x
  | x :: xs => x ++ sep :: sep_join xs
  end.

Definition dot : pystr := py ".".

(** The filter of [_parse_path]: [x and x != '.']. *)
Definition is_component (x : pystr) : bool :=
  truthy x && negb (bool_decide (x = dot)).

(** [PurePath._parse_path]: the root and the tail. *)
Definition _parse_path (path : pystr) : pystr * list pystr :=
  if negb (truthy path) then ([], [])
  else
    let '(root, rel) := splitroot path in
    (root, filter (fun x => is_component x = true) (split rel)).

Definition _format_parsed_parts (root : pystr) (tail : list pystr) : pystr :=
  if truthy root then root ++ sep_join tail else sep_join tail.

Definition Path_parts (p : Path) : pystr * list pystr :=
  _parse_path (posixpath_join (_raw_paths p)).

(** [str(p)] *)
Definition Path_str (p : Path) : pystr :=
  let '(root, tail) := Path_parts p in
  let s := _format_parsed_parts root tail in
  if truthy s then s else dot.

(** [p.name] *)
Definition Path_name (p : Path) : pystr :=
  match last (snd (Path_parts p)) with
  | Some x => x
  | None => []
  end.

(** What [Path.exists] and [Path.is_dir] do for a path string at the
    moment they are called: they answer, or they raise the [OSError] of the
    underlying [stat] when it is not one of those they take for "no"
    (a [PermissionError], for one). *)
Record PathStat := {
  path_exists : pystr -> os_result bool;
  path_is_dir : pystr -> os_result bool
}.

Definition Path_exists (fs : PathStat) (p : Path) : M bool :=
  os_call (path_exists fs (Path_str p)).
Definition Path_is_dir (fs : PathStat) (p : Path) : M bool :=
  os_call (path_is_dir fs (Path_str p)).

(** ** class PerformerSelector *)

Local Open Scope py_scope.

Definition PROMPT_STRING : pystr := py "Performer: ".

Definition __init__ (performers_root_directories : list pystr)
    (return_full_path : bool) : PerformerSelector :=
  {| performers_root_directories := performers_root_directories;
     return_full_path := return_full_path;
     allowed_characters :=
       list_to_set (ascii_letters ++ digits ++ py " .()_[]-");
     performer_length_limit := 100 |}.

Definition msg_empty : pystr := py "Error: Please enter a performer name.".
Definition msg_invalid_characters : pystr :=
  py "Error: Performer name contains invalid characters.".
Definition msg_too_long : pystr :=
  py "Error: Performer name is too long. Please enter a shorter name.".

Definition _is_valid_performer_name (name : pystr) : M bool :=
  if negb (truthy name) then
    print msg_empty ;;; ret false
  else
    allowed <- getattr allowed_characters ;;
    if negb (forallb (fun char => bool_decide (char ∈ allowed)) name) then
      print msg_invalid_characters ;;; ret false
    else
      limit <- getattr performer_length_limit ;;
      if (limit <? Z.of_nat (length name))%Z then
        print msg_too_long ;;; ret false
      else ret true.

Definition _is_junction (fs : FileSystem) (path : pystr) : M bool :=
  try_except
    (target <- os_call (os_readlink fs path) ;; ret (truthy target))
    [(cls_OSError, fun _ => ret false)].

(** A list comprehension with a condition that may have effects. *)
Fixpoint comprehension_if {A} (cond : A -> M bool) (l : list A) : M (list A) :=
  match l with
  | [] => ret []
  | x :: l' =>
      b <- cond x ;;
      rest <- comprehension_if cond l' ;;
      ret (if b then x :: rest else rest)
  end.

Definition msg_not_a_directory (root_path : pystr) : pystr :=
  py "The provided path '" ++ root_path ++ py "' is not a valid directory.".
Definition msg_permission (root_path : pystr) : pystr :=
  py "Permission error accessing '" ++ root_path ++ py "'".
Definition msg_os_error (root_path : pystr) (e : exn) : pystr :=
  py "Error accessing '" ++ root_path ++ py "': " ++ exn_str e.

Definition _get_direct_subfolders (fs : FileSystem) (root_path : pystr)
  : M (list pystr) :=
  try_except
    (if negb (os_path_isdir fs root_path) then
       raise (ValueError (msg_not_a_directory root_path))
     else
       names <- os_call (os_listdir fs root_path) ;;
       subfolders <-
         comprehension_if
           (fun name =>
              if os_path_isdir fs (os_path_join root_path name) then
                j <- _is_junction fs (os_path_join root_path name) ;;
                ret (negb j)
              else ret false)
           names ;;
       ret subfolders)
    [(cls_PermissionError, fun _ => print (msg_permission root_path) ;;; ret []);
     (cls_OSError, fun e => print (msg_os_error root_path e) ;;; ret [])].

(** [for x in l: acc = body(acc, x)] *)
Fixpoint for_each {A B} (l : list A) (acc : B) (body : B -> A -> M B) : M B :=
  match l with
  | [] => ret acc
  | x :: l' => acc' <- body acc x ;; for_each l' acc' body
  end.

Definition get_performer_paths (fs : FileSystem) : M (list Path) :=
  roots <- getattr performers_root_directories ;;
  for_each roots []
    (fun performers_paths root_dir =>
       performers <- _get_direct_subfolders fs root_dir ;;
       ret (performers_paths
              ++ ((fun performer => {| _raw_paths := [root_dir; performer] |})
                    <$> performers))).

(** [Union[Path, str]] *)
Inductive value :=
| VPath (p : Path)
| VStr (s : pystr).

(** One visit of the prompt: the user submits a line (and the file system
    is in some state when the directory is checked afterwards), interrupts
    (Ctrl-C), or ends the input (Ctrl-D). *)
Inductive prompt_event :=
| Submit (line : pystr) (fs : PathStat)
| Interrupt
| EndOfInput.

(** [prompt(...)]: returns the submitted line, raises [KeyboardInterrupt]
    on an interrupt and [EOFError] at the end of the input. *)
Definition prompt (ev : prompt_event) : M pystr :=
  match ev with
  | Submit line _ => ret line
  | Interrupt => raise KeyboardInterrupt
  | EndOfInput => raise EOFError
  end.

Definition stat_at (ev : prompt_event) : PathStat :=
  match ev with
  | Submit _ fs => fs
  | Interrupt | EndOfInput =>
      {| path_exists := fun _ => OsOk false; path_is_dir := fun _ => OsOk false |}
  end.

(** The dict comprehension [{performer.name: str(performer) for ...}]. *)
Definition build_performers_dict (performers_paths : list Path)
  : gmap (list N) (list N) :=
  foldl (fun d performer => <[Path_name performer := Path_str performer]> d)
        ∅ performers_paths.

Definition msg_does_not_exist : pystr :=
  py "Error: The selected performer directory does not exist.".
Definition msg_invalid_choice : pystr :=
  py "Error: Invalid choice. Please choose a valid performer.".
Definition msg_exiting : pystr := 10 :: py "Exiting...".  (* "\nExiting..." *)

(** The body of the [try] inside the loop, for one visit of the prompt:
    [Some v] is [return v], [None] falls through to the next iteration
    ([continue], or the end of the body after a message). *)
Definition choose_performer_body (performers_dict : gmap (list N) (list N))
    (ev : prompt_event) : M (option value) :=
  line <- prompt ev ;;
  let user_input := strip line in
  ok <- _is_valid_performer_name user_input ;;
  if negb ok then ret None
  else
    match performers_dict !! user_input with
    | Some chosen_path =>
        if truthy chosen_path then
          let chosen_path_obj := {| _raw_paths := [chosen_path] |} in
          there <- (found <- Path_exists (stat_at ev) chosen_path_obj ;;
                    if found then Path_is_dir (stat_at ev) chosen_path_obj
                    else ret false) ;;
          if there then
            full <- getattr return_full_path ;;
            ret (Some (if full then VPath chosen_path_obj
                       else VStr (Path_name chosen_path_obj)))
          else print msg_does_not_exist ;;; ret None
        else print msg_invalid_choice ;;; ret None
    | None => print msg_invalid_choice ;;; ret None
    end.

(** [while True: try: ... except KeyboardInterrupt: ...], run against the
    visits of the prompt that have happened so far. *)
Fixpoint choose_performer_loop (performers_dict : gmap (list N) (list N))
    (script : list prompt_event) : M value :=
  match script with
  | [] => blocked
  | ev :: script' =>
      r <- try_except (choose_performer_body performers_dict ev)
             [(cls_KeyboardInterrupt,
               fun _ => print msg_exiting ;;; exit 1%Z)] ;;
      match r with
      | Some v => ret v
      | None => choose_performer_loop performers_dict script'
      end
  end.

Definition choose_performer (performers_paths : list Path)
    (script : list prompt_event) : M value :=
  let performers_dict := build_performers_dict performers_paths in
  choose_performer_loop performers_dict script.

(** ** The entry point *)

(** [str(v)] for what [choose_performer] returns, as [print] shows it. *)
Definition value_str (v : value) : pystr :=
  match v with
  | VPath p => Path_str p
  | VStr s => s
  end.

(** [PerformerSelector(roots, return_full_path=full)]: a new selector
    object takes the place of [self]. *)
Definition construct (roots : list pystr) (full : bool) : M unit :=
  fun st => (Ret tt, {| self := __init__ roots full; stdout := stdout st |}).

Definition main (fs : FileSystem) (script : list prompt_event) : M unit :=
  let performers_root_directories := [] in
  construct performers_root_directories true ;;;
  performers_paths <- get_performer_paths fs ;;
  chosen_path <- choose_performer performers_paths script ;;
  print (value_str chosen_path).

(** ** Definitions used to state the properties *)

(** The state right after construction, with [out] already printed. *)
Definition mk_state (roots : list pystr) (full : bool) (out : list pystr)
  : State :=
  {| self := __init__ roots full; stdout := out |}.

Definition in_range (lo hi c : pychar) : bool := (lo <=? c) && (c <=? hi).

(** The character set as the specification words it: ASCII letters,
    digits, space, and [.()_[]-]. *)
Definition spec_allowed_char (c : pychar) : bool :=
  in_range (chr "A") (chr "Z") c || in_range (chr "a") (chr "z") c
  || in_range (chr "0") (chr "9") c
  || (c =? chr " ")
  || (c =? chr ".") || (c =? chr "(") || (c =? chr ")") || (c =? chr "_")
  || (c =? chr "[") || (c =? chr "]") || (c =? chr "-").

(** Validity of a name as the specification words it. *)
Definition valid_name_spec (name : pystr) : Prop :=
  name ≠ [] ∧ Forall (fun c => spec_allowed_char c = true) name
  ∧ (length name <= 100)%nat.

(** The message of the first failing check, in the order empty,
    invalid character, too long. *)
Definition first_failing_check (name : pystr) : option pystr :=
  if bool_decide (name = []) then Some msg_empty
  else if negb (forallb spec_allowed_char name) then Some msg_invalid_characters
  else if (100 <? length name)%nat then Some msg_too_long
  else None.

(** All code points below 128. *)
Definition ascii_range : list pychar := N.of_nat <$> seq 0 128.

(** The state after several more lines have been printed. *)
Definition say_all (lines : list pystr) (st : State) : State :=
  {| self := self st; stdout := stdout st ++ lines |}.

(** ** Scanning, without the monad *)

(** What [_is_junction] answers: the link target could be read and is a
    non-empty string. *)
Definition junction (fs : FileSystem) (path : pystr) : bool :=
  match os_readlink fs path with
  | OsOk target => truthy target
  | _ => false
  end.

(** The condition of the list comprehension of [_get_direct_subfolders]. *)
Definition kept (fs : FileSystem) (root_path name : pystr) : bool :=
  os_path_isdir fs (os_path_join root_path name)
  && negb (junction fs (os_path_join root_path name)).

(** The names a root contributes, and what is printed for it, once the
    root is known to be a directory. *)
Definition direct_subfolders (fs : FileSystem) (root_path : pystr)
  : list pystr :=
  match os_listdir fs root_path with
  | OsOk names => filter (fun name => kept fs root_path name = true) names
  | _ => []
  end.

Definition listing_report (fs : FileSystem) (root_path : pystr)
  : list pystr :=
  match os_listdir fs root_path with
  | OsOk _ => []
  | OsPermissionDenied _ => [msg_permission root_path]
  | OsFailure m => [msg_os_error root_path (OSError m)]
  end.

Definition root_entries (fs : FileSystem) (root_dir : pystr) : list Path :=
  (fun performer => {| _raw_paths := [root_dir; performer] |})
    <$> direct_subfolders fs root_dir.

(** The link target of an entry could be read. *)
Definition link_read_succeeds (fs : FileSystem) (path : pystr) : Prop :=
  exists target, os_readlink fs path = OsOk target.

(** ** Well-formed parsed paths *)

(** A component of a parsed path: not empty, not ["."], without ["/"]. *)
Definition component_ok (x : pystr) : Prop :=
  is_component x = true ∧ sep ∉ x.

(** What [_parse_path] produces: a root that is empty, ["/"] or ["//"],
    and a tail of components. *)
Definition parsed_ok (root : pystr) (tail : list pystr) : Prop :=
  root ∈ [[]; [sep]; [sep; sep]] ∧ Forall component_ok tail.

(** ** The name-to-path mapping and the loop, without the monad *)

(** The entries of the mapping stored under one name. *)
Definition entries_for (name : pystr) (d : gmap (list N) (list N))
  : list (list N * list N) :=
  filter (fun kv => fst kv = name) (map_to_list d).

(** What [p.exists() and p.is_dir()] comes to for a path string: [is_dir]
    is asked only when [exists] has answered [True]. *)
Definition exists_and_is_dir (stat : PathStat) (path : pystr)
  : os_result bool :=
  match path_exists stat path with
  | OsOk true => path_is_dir stat path
  | r => r
  end.

(** The exception a failed system call raises. *)
Definition os_exn {A} (r : os_result A) : option exn :=
  match r with
  | OsOk _ => None
  | OsPermissionDenied m => Some (PermissionError m)
  | OsFailure m => Some (OSError m)
  end.

(** What one visit of the prompt leads to: a returned value, a message and
    another visit, the exit after an interrupt, or an exception that the
    loop does not catch. *)
Inductive visit_result :=
| Accepted (v : value)
| Rejected (msg : pystr)
| Cancelled
| Crashed (e : exn).

(** One visit of the prompt, decided without running the monad. *)
Definition visit (performers_dict : gmap (list N) (list N)) (full : bool)
    (ev : prompt_event) : visit_result :=
  match ev with
  | Interrupt => Cancelled
  | EndOfInput => Crashed EOFError
  | Submit line fs =>
      let user_input := strip line in
      match first_failing_check user_input with
      | Some m => Rejected m
      | None =>
          match performers_dict !! user_input with
          | Some chosen_path =>
              let chosen_path_obj := {| _raw_paths := [chosen_path] |} in
              if negb (truthy chosen_path) then Rejected msg_invalid_choice
              else
                match exists_and_is_dir fs (Path_str chosen_path_obj) with
                | OsOk true =>
                    Accepted (if full then VPath chosen_path_obj
                              else VStr (Path_name chosen_path_obj))
                | OsOk false => Rejected msg_does_not_exist
                | OsPermissionDenied m => Crashed (PermissionError m)
                | OsFailure m => Crashed (OSError m)
                end
          | None => Rejected msg_invalid_choice
          end
      end
  end.

(** A submitted line that does not lead to a selection: the trimmed input
    is invalid, or unknown to the mapping, or mapped to a path that
    [exists() and is_dir()] finds not to be an existing directory. The
    message is the one printed for it. *)
Inductive rejected (performers_dict : gmap (list N) (list N))
  : prompt_event -> pystr -> Prop :=
| rejected_invalid line fs msg :
    first_failing_check (strip line) = Some msg ->
    rejected performers_dict (Submit line fs) msg
| rejected_unknown line fs :
    valid_name_spec (strip line) ->
    performers_dict !! strip line = None ->
    rejected performers_dict (Submit line fs) msg_invalid_choice
| rejected_stale line fs chosen_path :
    valid_name_spec (strip line) ->
    performers_dict !! strip line = Some chosen_path ->
    truthy chosen_path = true ->
    exists_and_is_dir fs (Path_str {| _raw_paths := [chosen_path] |})
    = OsOk false ->
    rejected performers_dict (Submit line fs) msg_does_not_exist.

(** A computation leaves the selector object as it found it. *)
Definition preserves_self {A} (m : M A) : Prop :=
  forall st, self (snd (m st)) = self st.

(** ** Scanning and choosing together *)

(** Every name that the listing of a root keeps is a directory entry name:
    not empty, not ["."], without ["/"]. *)
Definition proper_listing (fs : FileSystem) (roots : list pystr) : Prop :=
  Forall (fun root_dir => Forall component_ok (direct_subfolders fs root_dir))
         roots.

(** The name a returned value stands for. *)
Definition value_name (v : value) : pystr :=
  match v with
  | VPath p => Path_name p
  | VStr s => s
  end.

(** The lines with which a submitted line is turned down in front of an
    empty mapping. *)
Definition turn_down_lines : list pystr :=
  [msg_empty; msg_invalid_characters; msg_too_long; msg_invalid_choice].

Definition is_submit (ev : prompt_event) : Prop :=
  match ev with
  | Submit _ _ => True
  | _ => False
  end.

(** ** Examples: file systems, collected entries, a session *)

Fixpoint assoc {A} (key : pystr) (table : list (list N * A)) : option A :=
  match table with
  | [] => None
  | (k, v) :: table' => if bool_decide (k = key) then Some v else assoc key table'
  end.

(** A file system given by tables: the paths that are directories, what
    listing a path gives, and the link targets that can be read. *)
Definition table_fs (dirs : list pystr)
    (listings : list (list N * os_result (list pystr)))
    (links : list (list N * list N)) : FileSystem :=
  {| os_path_isdir := fun p => bool_decide (p ∈ dirs);
     os_listdir := fun p =>
       default (OsFailure (py "[Errno 2] No such file or directory")) (assoc p listings);
     os_readlink := fun p =>
       match assoc p links with
       | Some target => OsOk target
       | None => OsFailure (py "[Errno 22] Invalid argument")
       end |}.

(** [R1] holds the directory [Alice], [R2] the directory [Bob]. *)
Definition fs_two_roots : FileSystem :=
  table_fs [py "R1"; py "R2"; py "R1/Alice"; py "R2/Bob"]
           [(py "R1", OsOk [py "Alice"]); (py "R2", OsOk [py "Bob"])]
           [].

(** [R1] holds the directory [Alice]; [notes.txt] is a file; [locked] and
    [broken] are directories that cannot be listed. *)
Definition fs_failing_roots : FileSystem :=
  table_fs [py "R1"; py "R1/Alice"; py "locked"; py "broken"]
           [(py "R1", OsOk [py "Alice"]);
            (py "locked", OsPermissionDenied (py "[Errno 13] Permission denied"));
            (py "broken", OsFailure (py "[Errno 5] Input/output error"))]
           [].

(** [R] holds a directory [real], a link [lnk] to it, and a file. *)
Definition fs_with_link : FileSystem :=
  table_fs [py "R"; py "R/real"; py "R/lnk"]
           [(py "R", OsOk [py "real"; py "lnk"; py "file.txt"])]
           [(py "R/lnk", py "R/real")].

(** [R1] and [R2] both hold a directory [Sam]. *)
Definition fs_two_sams : FileSystem :=
  table_fs [py "R1"; py "R2"; py "R1/Sam"; py "R2/Sam"]
           [(py "R1", OsOk [py "Sam"]); (py "R2", OsOk [py "Sam"])]
           [].

(** A file system view in which every path exists and is a directory, one
    in which nothing exists, one in which exactly the directories of
    [fs_two_roots] exist, and one in which no path may be looked at. *)
Definition all_present : PathStat :=
  {| path_exists := fun _ => OsOk true; path_is_dir := fun _ => OsOk true |}.
Definition all_gone : PathStat :=
  {| path_exists := fun _ => OsOk false; path_is_dir := fun _ => OsOk false |}.
Definition two_roots_view : PathStat :=
  {| path_exists := fun p => OsOk (os_path_isdir fs_two_roots p);
     path_is_dir := fun p => OsOk (os_path_isdir fs_two_roots p) |}.
Definition all_denied : PathStat :=
  {| path_exists := fun _ => OsPermissionDenied (py "[Errno 13] Permission denied");
     path_is_dir := fun _ => OsPermissionDenied (py "[Errno 13] Permission denied") |}.

(** The entries collected from [fs_two_roots], and a session at the prompt:
    blank input, a forbidden character, an unknown name, a name whose
    directory has gone, and then a good choice. *)
Definition two_entries : list Path :=
  [ {| _raw_paths := [py "R1"; py "Alice"] |};
    {| _raw_paths := [py "R2"; py "Bob"] |} ].

Definition four_bad_visits : list prompt_event :=
  [ Submit (py "   ") all_present;
    Submit (py "S@m") all_present;
    Submit (py "Carol") all_present;
    Submit (py "Alice") all_gone ].

(** * Properties *)

(** ** Running the monad *)

Lemma bind_ret {A B} (a : A) (k : A -> M B) st : bind (ret a) k st = k a st.
Proof. reflexivity. Qed.

Lemma bind_print {B} line (k : unit -> M B) st :
  bind (print line) k st = k tt (say line st).
Proof. reflexivity. Qed.

Lemma bind_getattr {A B} (f : PerformerSelector -> A) (k : A -> M B) st :
  bind (getattr f) k st = k (f (self st)) st.
Proof. reflexivity. Qed.

Lemma bind_raise {A B} e (k : A -> M B) st :
  bind (raise e) k st = (Raise e, st).
Proof. reflexivity. Qed.

(** ** The character set *)

(** Replace the character literals of a hypothesis by their code points. *)
Ltac eval_chr_in H :=
  repeat match type of H with
         | context [chr ?a] =>
             let v := eval vm_compute in (chr a) in
             change (chr a) with v in H
         end.

Lemma forallb_Forall {A} (f : A -> bool) (l : list A) :
  forallb f l = true <-> Forall (fun x => f x = true) l.
Proof.
  induction l as [|x l IH]; simpl.
  - split; [constructor | done].
  - rewrite andb_true_iff, IH, Forall_cons. done.
Qed.

Lemma ascii_range_spec (c : pychar) : c < 128 -> c ∈ ascii_range.
Proof.
  intros Hc. unfold ascii_range.
  apply list_elem_of_fmap. exists (N.to_nat c). split.
  - by rewrite N2Nat.id.
  - apply elem_of_seq. lia.
Qed.

Lemma allowed_list_spec (c : pychar) :
  c ∈ ascii_letters ++ digits ++ py " .()_[]-" <-> spec_allowed_char c = true.
Proof.
  split.
  - revert c. apply Forall_forall.
    apply forallb_Forall. by vm_compute.
  - intros Hc.
    assert (Hlt : c < 128).
    { unfold spec_allowed_char, in_range in Hc. eval_chr_in Hc.
      rewrite !orb_true_iff, !andb_true_iff, !N.leb_le, !N.eqb_eq in Hc.
      lia. }
    apply ascii_range_spec in Hlt.
    assert (Hall : Forall
              (fun c => implb (spec_allowed_char c)
                          (bool_decide
                             (c ∈ ascii_letters ++ digits ++ py " .()_[]-"))
                        = true) ascii_range).
    { apply forallb_Forall. by vm_compute. }
    rewrite Forall_forall in Hall. specialize (Hall c Hlt).
    rewrite Hc in Hall. simpl in Hall. by apply bool_decide_eq_true in Hall.
Qed.

Lemma allowed_characters_spec roots full (c : pychar) :
  c ∈ allowed_characters (__init__ roots full) <-> spec_allowed_char c = true.
Proof.
  unfold __init__; cbn [allowed_characters].
  rewrite elem_of_list_to_set. apply allowed_list_spec.
Qed.

Lemma forallb_allowed roots full (name : pystr) :
  forallb (fun char => bool_decide (char ∈ allowed_characters (__init__ roots full)))
          name
  = forallb spec_allowed_char name.
Proof.
  induction name as [|c name IH]; cbn [forallb]; [done|]. rewrite IH. f_equal.
  destruct (spec_allowed_char c) eqn:Hc.
  - apply bool_decide_eq_true. by apply allowed_characters_spec.
  - apply bool_decide_eq_false. rewrite allowed_characters_spec. congruence.
Qed.

(** ** The validator *)

Lemma say_mk_state roots full out line :
  say line (mk_state roots full out) = mk_state roots full (out ++ [line]).
Proof. reflexivity. Qed.

(** The validator, run: it prints the message of the first failing check
    and returns [False], or prints nothing and returns [True]. *)
Lemma _is_valid_performer_name_run roots full out (name : pystr) :
  _is_valid_performer_name name (mk_state roots full out)
  = match first_failing_check name with
    | Some m => (Ret false, mk_state roots full (out ++ [m]))
    | None => (Ret true, mk_state roots full out)
    end.
Proof.
  unfold _is_valid_performer_name, first_failing_check.
  destruct name as [|c name]; [reflexivity|].
  rewrite bool_decide_eq_false_2 by done.
  cbn [truthy negb]. rewrite bind_getattr.
  cbn [self mk_state]. rewrite forallb_allowed.
  destruct (forallb spec_allowed_char (c :: name)); cbn [negb]; [|reflexivity].
  rewrite bind_getattr. cbn [self mk_state __init__ performer_length_limit].
  destruct (Nat.ltb_spec 100 (length (c :: name))) as [Hlen|Hlen].
  - assert (H : (100 <? Z.of_nat (length (c :: name)))%Z = true)
      by (apply Z.ltb_lt; lia).
    rewrite H. reflexivity.
  - assert (H : (100 <? Z.of_nat (length (c :: name)))%Z = false)
      by (apply Z.ltb_ge; lia).
    rewrite H. reflexivity.
Qed.

Lemma first_failing_check_None (name : pystr) :
  first_failing_check name = None <-> valid_name_spec name.
Proof.
  unfold first_failing_check, valid_name_spec.
  destruct (decide (name = [])) as [Hnil|Hnil].
  - rewrite bool_decide_eq_true_2 by done. split; [done|]. by intros (? & _).
  - rewrite bool_decide_eq_false_2 by done.
    destruct (forallb spec_allowed_char name) eqn:Hall; cbn [negb].
    + apply forallb_Forall in Hall.
      destruct (Nat.ltb_spec 100 (length name)) as [Hlen|Hlen].
      * split; [done|]. intros (_ & _ & ?). lia.
      * split; [|done]. intros _. by repeat split.
    + split; [done|]. intros (_ & Hall' & _).
      apply forallb_Forall in Hall'. congruence.
Qed.

Lemma first_failing_check_lines (name msg : pystr) :
  first_failing_check name = Some msg ->
  msg ∈ [msg_empty; msg_invalid_characters; msg_too_long].
Proof.
  unfold first_failing_check. intros H. rewrite !elem_of_cons.
  repeat case_match; simplify_eq; tauto.
Qed.

Lemma lstrip_all_space (line : pystr) :
  Forall (fun c => isspace c = true) line -> lstrip line = [].
Proof.
  induction 1 as [|c line Hc _ IH]; simpl; [done|]. by rewrite Hc.
Qed.

Lemma strip_all_space (line : pystr) :
  Forall (fun c => isspace c = true) line -> strip line = [].
Proof.
  intros H. unfold strip. rewrite (lstrip_all_space _ H). reflexivity.
Qed.

(** C2: the validator returns [True] exactly for the names that are
    non-empty, made of ASCII letters, digits, space and [.()_[]-] only, and
    of length at most 100; it returns [False] for all others and never
    raises.  In particular a 100-character name of allowed characters is
    accepted, a 101-character one is rejected, the empty name is rejected
    and so is every name that contains ["@"]. *)
Theorem is_valid_name_iff roots full out :
  let run name := fst (_is_valid_performer_name name (mk_state roots full out)) in
  (forall name, run name = Ret true <-> valid_name_spec name)
  ∧ (forall name, run name = Ret false <-> ¬ valid_name_spec name)
  ∧ (forall name, Forall (fun c => spec_allowed_char c = true) name ->
        length name = 100%nat -> run name = Ret true)
  ∧ (forall name, Forall (fun c => spec_allowed_char c = true) name ->
        length name = 101%nat -> run name = Ret false)
  ∧ run [] = Ret false
  ∧ (forall name, chr "@" ∈ name -> run name = Ret false).
Proof.
  intros run.
  assert (Hacc : forall name, run name = Ret true <-> valid_name_spec name).
  { intros name. unfold run. rewrite _is_valid_performer_name_run.
    rewrite <- first_failing_check_None.
    destruct (first_failing_check name); simpl; split; congruence. }
  assert (Hrej : forall name, run name = Ret false <-> ¬ valid_name_spec name).
  { intros name. unfold run. rewrite _is_valid_performer_name_run.
    rewrite <- first_failing_check_None.
    destruct (first_failing_check name); simpl; split; congruence. }
  split; [done|]. split; [done|]. split; [|split; [|split]].
  - intros name Hall Hlen. apply Hacc. split; [|split; [done|lia]].
    intros ->. discriminate.
  - intros name Hall Hlen. apply Hrej. intros (_ & _ & ?). lia.
  - apply Hrej. by intros (? & _).
  - intros name Hin. apply Hrej. intros (_ & Hall & _).
    rewrite Forall_forall in Hall. specialize (Hall _ Hin). discriminate.
Qed.

Lemma is_valid_name_iff_witness :
  let run name := fst (_is_valid_performer_name name (mk_state [] true [])) in
  run (replicate 100 (chr "a")) = Ret true
  ∧ run (replicate 101 (chr "a")) = Ret false
  ∧ run (py "S@m") = Ret false
  ∧ run (py "Sam (1)_[x]-2.0") = Ret true.
Proof.
  intros run.
  destruct (is_valid_name_iff [] true []) as (Hacc & _ & H100 & H101 & _ & Hat).
  split; [|split; [|split]].
  - apply H100; [|reflexivity]. apply forallb_Forall. by vm_compute.
  - apply H101; [|reflexivity]. apply forallb_Forall. by vm_compute.
  - apply Hat. apply (bool_decide_unpack _). by vm_compute.
  - apply Hacc. split; [done|]. split; [|simpl; lia].
    apply forallb_Forall. by vm_compute.
Defined.

(** C3: the validator prints exactly the message of the first failing
    check in the order empty, invalid character, too long, and nothing
    else; a name that both contains a disallowed character and is longer
    than 100 gets the invalid-characters message only; and a submitted line
    of white space only is trimmed to the empty string, so that the loop
    body prints the empty-name message and goes back to the prompt. *)
Theorem validation_order_short_circuit roots full out :
  (forall name,
      _is_valid_performer_name name (mk_state roots full out)
      = match first_failing_check name with
        | Some m => (Ret false, mk_state roots full (out ++ [m]))
        | None => (Ret true, mk_state roots full out)
        end)
  ∧ (forall name c,
        c ∈ name -> spec_allowed_char c = false -> (100 < length name)%nat ->
        _is_valid_performer_name name (mk_state roots full out)
        = (Ret false, mk_state roots full (out ++ [msg_invalid_characters])))
  ∧ (forall performers_dict line fs,
        Forall (fun c => isspace c = true) line ->
        strip line = []
        ∧ choose_performer_body performers_dict (Submit line fs)
            (mk_state roots full out)
          = (Ret None, mk_state roots full (out ++ [msg_empty]))).
Proof.
  split; [apply _is_valid_performer_name_run|]. split.
  - intros name c Hin Hc Hlen. rewrite _is_valid_performer_name_run.
    unfold first_failing_check.
    rewrite bool_decide_eq_false_2 by (intros ->; by apply elem_of_nil in Hin).
    destruct (forallb spec_allowed_char name) eqn:Hall; [|reflexivity].
    apply forallb_Forall in Hall. rewrite Forall_forall in Hall.
    specialize (Hall _ Hin). congruence.
  - intros d line fs Hsp. split; [by apply strip_all_space|].
    unfold choose_performer_body. cbn [prompt]. rewrite bind_ret.
    rewrite (strip_all_space _ Hsp). reflexivity.
Qed.

Lemma validation_order_short_circuit_witness :
  _is_valid_performer_name (replicate 150 (chr "@")) (mk_state [] true [])
  = (Ret false, mk_state [] true [msg_invalid_characters])
  ∧ choose_performer_body ∅ (Submit (py "   ") (stat_at Interrupt))
      (mk_state [] true [])
    = (Ret None, mk_state [] true [msg_empty]).
Proof.
  destruct (validation_order_short_circuit [] true []) as (_ & Hinv & Hsp).
  split.
  - apply (Hinv _ (chr "@")); [|reflexivity|simpl; lia].
    apply (bool_decide_unpack _). by vm_compute.
  - apply Hsp. apply forallb_Forall. by vm_compute.
Defined.

(** ** Scanning *)

Lemma comprehension_if_pure {A} (cond : A -> M bool) (f : A -> bool)
    (l : list A) st :
  (forall x st', cond x st' = (Ret (f x), st')) ->
  comprehension_if cond l st = (Ret (filter (fun x => f x = true) l), st).
Proof.
  intros Hcond. induction l as [|x l IH]; [reflexivity|].
  cbn [comprehension_if]. unfold bind at 1. rewrite Hcond.
  unfold bind at 1. rewrite IH. unfold ret. rewrite filter_cons.
  destruct (decide (f x = true)) as [E|E].
  - by rewrite E.
  - apply not_true_is_false in E. by rewrite E.
Qed.

Lemma say_all_mk_state roots full out lines :
  say_all lines (mk_state roots full out) = mk_state roots full (out ++ lines).
Proof. reflexivity. Qed.

Lemma say_all_say_all l1 l2 st :
  say_all l2 (say_all l1 st) = say_all (l1 ++ l2) st.
Proof. unfold say_all; simpl. by rewrite app_assoc. Qed.

Section Scanning.
Context (fs : FileSystem).

Lemma _is_junction_run path st :
  _is_junction fs path st = (Ret (junction fs path), st).
Proof.
  unfold _is_junction, junction, try_except, bind.
  destruct (os_readlink fs path); reflexivity.
Qed.

Lemma comprehension_if_kept root_path (names : list pystr) st :
  comprehension_if
    (fun name =>
       if os_path_isdir fs (os_path_join root_path name) then
         j <- _is_junction fs (os_path_join root_path name) ;; ret (negb j)
       else ret false)
    names st
  = (Ret (filter (fun name => kept fs root_path name = true) names), st).
Proof.
  apply comprehension_if_pure. intros name st'. unfold kept.
  destruct (os_path_isdir fs (os_path_join root_path name)); [|reflexivity].
  unfold bind. by rewrite _is_junction_run.
Qed.

(** [_get_direct_subfolders], run. *)
Lemma _get_direct_subfolders_run root_path st :
  _get_direct_subfolders fs root_path st
  = if os_path_isdir fs root_path then
      (Ret (direct_subfolders fs root_path),
       say_all (listing_report fs root_path) st)
    else (Raise (ValueError (msg_not_a_directory root_path)), st).
Proof.
  unfold _get_direct_subfolders, try_except, direct_subfolders, listing_report.
  destruct (os_path_isdir fs root_path); cbn [negb]; [|reflexivity].
  unfold bind at 1.
  destruct (os_listdir fs root_path) as [names|m|m]; cbn [os_call].
  - unfold ret at 1. unfold bind at 1. rewrite comprehension_if_kept.
    unfold ret, say_all. rewrite app_nil_r. by destruct st.
  - reflexivity.
  - reflexivity.
Qed.

(** A root for which [_get_direct_subfolders] returns is a directory, and
    what is returned is what the listing keeps. *)
Lemma _get_direct_subfolders_returns root_path names st :
  fst (_get_direct_subfolders fs root_path st) = Ret names ->
  os_path_isdir fs root_path = true ∧ names = direct_subfolders fs root_path.
Proof.
  rewrite _get_direct_subfolders_run.
  destruct (os_path_isdir fs root_path); cbn [fst]; [|done].
  by intros [= <-].
Qed.

(** The loop of [get_performer_paths] over roots that are all directories. *)
Lemma for_each_roots_ok (roots : list pystr) (acc : list Path) st :
  Forall (fun root_dir => os_path_isdir fs root_dir = true) roots ->
  for_each roots acc
    (fun performers_paths root_dir =>
       performers <- _get_direct_subfolders fs root_dir ;;
       ret (performers_paths
              ++ ((fun performer => {| _raw_paths := [root_dir; performer] |})
                    <$> performers))) st
  = (Ret (acc ++ (roots ≫= root_entries fs)),
     say_all (roots ≫= listing_report fs) st).
Proof.
  intros Hdirs. revert acc st.
  induction Hdirs as [|root_dir roots Hdir _ IH]; intros acc st.
  - cbn. rewrite app_nil_r. unfold ret, say_all. rewrite app_nil_r.
    by destruct st.
  - cbn [for_each]. unfold bind at 1. unfold bind at 1.
    rewrite _get_direct_subfolders_run, Hdir. unfold ret at 1.
    rewrite IH. rewrite say_all_say_all. rewrite !bind_cons.
    by rewrite <- app_assoc.
Qed.

(** The loop stops at the first root that is not a directory. *)
Lemma for_each_roots_raise (good : list pystr) bad (rest : list pystr)
    (acc : list Path) st :
  Forall (fun root_dir => os_path_isdir fs root_dir = true) good ->
  os_path_isdir fs bad = false ->
  for_each (good ++ bad :: rest) acc
    (fun performers_paths root_dir =>
       performers <- _get_direct_subfolders fs root_dir ;;
       ret (performers_paths
              ++ ((fun performer => {| _raw_paths := [root_dir; performer] |})
                    <$> performers))) st
  = (Raise (ValueError (msg_not_a_directory bad)),
     say_all (good ≫= listing_report fs) st).
Proof.
  intros Hdirs Hbad. revert acc st.
  induction Hdirs as [|root_dir good Hdir _ IH]; intros acc st.
  - cbn [app for_each]. unfold bind at 1. unfold bind at 1.
    rewrite _get_direct_subfolders_run, Hbad. cbn.
    unfold say_all. rewrite app_nil_r. by destruct st.
  - cbn [app for_each]. unfold bind at 1. unfold bind at 1.
    rewrite _get_direct_subfolders_run, Hdir. unfold ret at 1.
    rewrite IH. rewrite say_all_say_all. by rewrite bind_cons.
Qed.

End Scanning.

(** C1, as stated, fails: a root that is not a directory makes
    [_get_direct_subfolders] raise [ValueError], which neither [except]
    clause catches, and [get_performer_paths] raises with it. *)
Lemma not_a_directory_raises :
  os_path_isdir fs_failing_roots (py "notes.txt") = false
  ∧ _get_direct_subfolders fs_failing_roots (py "notes.txt") (mk_state [] true [])
    = (Raise (ValueError (py "The provided path 'notes.txt' is not a valid directory.")),
       mk_state [] true [])
  ∧ get_performer_paths fs_failing_roots
      (mk_state [py "R1"; py "notes.txt"] true [])
    = (Raise (ValueError (py "The provided path 'notes.txt' is not a valid directory.")),
       mk_state [py "R1"; py "notes.txt"] true []).
Proof. split; [|split]; by vm_compute. Qed.

(** C1, amended: for a root that is a directory whose listing is denied or
    fails with any other OS error, [_get_direct_subfolders] prints one
    message and returns the empty list, and no exception propagates; for a
    root that is not a directory it raises [ValueError], which propagates.
    So [get_performer_paths] returns, with no entry for the roots whose
    listing failed, when every root is a directory, and raises at the first
    root that is not one. *)
Theorem listing_failure_is_soft fs :
  (forall root_path m st,
      os_path_isdir fs root_path = true ->
      os_listdir fs root_path = OsPermissionDenied m ->
      _get_direct_subfolders fs root_path st
      = (Ret [], say (msg_permission root_path) st))
  ∧ (forall root_path m st,
        os_path_isdir fs root_path = true ->
        os_listdir fs root_path = OsFailure m ->
        _get_direct_subfolders fs root_path st
        = (Ret [], say (msg_os_error root_path (OSError m)) st))
  ∧ (forall root_path st,
        os_path_isdir fs root_path = false ->
        _get_direct_subfolders fs root_path st
        = (Raise (ValueError (msg_not_a_directory root_path)), st))
  ∧ (forall roots full out,
        Forall (fun root_dir => os_path_isdir fs root_dir = true) roots ->
        get_performer_paths fs (mk_state roots full out)
        = (Ret (roots ≫= root_entries fs),
           mk_state roots full (out ++ (roots ≫= listing_report fs)))
        ∧ forall root_dir,
            (forall names, os_listdir fs root_dir <> OsOk names) ->
            root_entries fs root_dir = [])
  ∧ (forall good bad rest full out,
        Forall (fun root_dir => os_path_isdir fs root_dir = true) good ->
        os_path_isdir fs bad = false ->
        fst (get_performer_paths fs (mk_state (good ++ bad :: rest) full out))
        = Raise (ValueError (msg_not_a_directory bad))).
Proof.
  split; [|split; [|split; [|split]]].
  - intros root_path m st Hdir Hls.
    rewrite _get_direct_subfolders_run, Hdir.
    unfold direct_subfolders, listing_report. by rewrite Hls.
  - intros root_path m st Hdir Hls.
    rewrite _get_direct_subfolders_run, Hdir.
    unfold direct_subfolders, listing_report. by rewrite Hls.
  - intros root_path st Hdir. by rewrite _get_direct_subfolders_run, Hdir.
  - intros roots full out Hdirs. split.
    + unfold get_performer_paths. rewrite bind_getattr.
      cbn [self mk_state __init__ performers_root_directories].
      by rewrite for_each_roots_ok.
    + intros root_dir Hfail. unfold root_entries, direct_subfolders.
      destruct (os_listdir fs root_dir) as [names| |]; [|done..].
      by destruct (Hfail names).
  - intros good bad rest full out Hdirs Hbad.
    unfold get_performer_paths. rewrite bind_getattr.
    cbn [self mk_state __init__ performers_root_directories].
    by rewrite for_each_roots_raise.
Qed.

Lemma listing_failure_is_soft_witness :
  _get_direct_subfolders fs_failing_roots (py "locked") (mk_state [] true [])
  = (Ret [], mk_state [] true [py "Permission error accessing 'locked'"])
  ∧ _get_direct_subfolders fs_failing_roots (py "broken") (mk_state [] true [])
    = (Ret [],
       mk_state [] true
         [py "Error accessing 'broken': [Errno 5] Input/output error"])
  ∧ fst (get_performer_paths fs_failing_roots
           (mk_state [py "locked"; py "R1"; py "broken"] true []))
    = Ret [ {| _raw_paths := [py "R1"; py "Alice"] |} ]
  ∧ fst (get_performer_paths fs_failing_roots
           (mk_state [py "R1"; py "notes.txt"; py "locked"] true []))
    = Raise (ValueError (msg_not_a_directory (py "notes.txt"))).
Proof.
  destruct (listing_failure_is_soft fs_failing_roots)
    as (Hperm & Hos & _ & Hall & Hraise).
  split; [|split; [|split]].
  - rewrite (Hperm (py "locked") (py "[Errno 13] Permission denied"));
      by vm_compute.
  - rewrite (Hos (py "broken") (py "[Errno 5] Input/output error"));
      by vm_compute.
  - destruct (Hall [py "locked"; py "R1"; py "broken"] true []) as [Hrun _].
    + apply forallb_Forall. by vm_compute.
    + rewrite Hrun. by vm_compute.
  - apply (Hraise [py "R1"] (py "notes.txt") [py "locked"]).
    + apply forallb_Forall. by vm_compute.
    + by vm_compute.
Defined.

(** C5: [get_performer_paths] goes through the configured roots in order;
    when [_get_direct_subfolders] returns names for each of them, it
    returns one path [Path(root_dir, performer)] per returned name, in the
    order of the roots and of each root's names, all in one flat list with
    nothing removed; the path is parsed from the root joined with the
    name. *)
Theorem collect_all_in_order fs roots (returned : list (list pystr)) full out :
  Forall2 (fun root_dir names =>
             forall st, fst (_get_direct_subfolders fs root_dir st) = Ret names)
          roots returned ->
  fst (get_performer_paths fs (mk_state roots full out))
  = Ret (concat
           (zip_with
              (fun root_dir names =>
                 (fun performer => {| _raw_paths := [root_dir; performer] |})
                   <$> names)
              roots returned))
  ∧ (forall root_dir performer,
        Path_parts {| _raw_paths := [root_dir; performer] |}
        = _parse_path (os_path_join root_dir performer)).
Proof.
  intros Hret. split; [|reflexivity].
  assert (Hdirs : Forall (fun root_dir => os_path_isdir fs root_dir = true) roots
                  ∧ roots ≫= root_entries fs
                    = concat
                        (zip_with
                           (fun root_dir names =>
                              (fun performer =>
                                 {| _raw_paths := [root_dir; performer] |})
                                <$> names)
                           roots returned)).
  { induction Hret as [|root_dir names roots returned Hroot _ [IH1 IH2]].
    - by split.
    - destruct (_get_direct_subfolders_returns _ _ _ _
                  (Hroot (mk_state [] full []))) as [Hdir ->].
      split; [by constructor|].
      rewrite bind_cons. cbn [zip_with concat]. by rewrite IH2. }
  destruct Hdirs as [Hdirs <-].
  unfold get_performer_paths. rewrite bind_getattr.
  cbn [self mk_state __init__ performers_root_directories].
  by rewrite for_each_roots_ok.
Qed.

Lemma collect_all_in_order_witness :
  fst (get_performer_paths fs_two_roots (mk_state [py "R1"; py "R2"] true []))
  = Ret two_entries
  ∧ Path_name <$> two_entries = [py "Alice"; py "Bob"]
  ∧ Path_str <$> two_entries = [py "R1/Alice"; py "R2/Bob"].
Proof.
  destruct (collect_all_in_order fs_two_roots [py "R1"; py "R2"]
              [[py "Alice"]; [py "Bob"]] true [])
    as [Hrun _].
  - constructor; [|constructor; [|constructor]]; intros st;
      rewrite _get_direct_subfolders_run; by vm_compute.
  - split; [|split]; [|by vm_compute..]. rewrite Hrun. by vm_compute.
Defined.

(** C6: of the entries listed for a root, [_get_direct_subfolders] returns,
    in the order of the listing, exactly those that are directories and
    whose link target cannot be read: an entry whose link target is read is
    left out even though it is a directory, and an entry for which the read
    fails is kept as a real directory.  A link target that [os.readlink]
    returns is the path a link points to, never the empty string. *)
Theorem subfolder_kept_iff fs root_path (names : list pystr) st :
  os_path_isdir fs root_path = true ->
  os_listdir fs root_path = OsOk names ->
  (forall name,
      name ∈ names ->
      os_readlink fs (os_path_join root_path name) <> OsOk []) ->
  exists subfolders,
    _get_direct_subfolders fs root_path st = (Ret subfolders, st)
    ∧ subfolders = filter (fun name => kept fs root_path name = true) names
    ∧ forall name,
        name ∈ subfolders
        <-> name ∈ names
            ∧ os_path_isdir fs (os_path_join root_path name) = true
            ∧ ¬ link_read_succeeds fs (os_path_join root_path name).
Proof.
  intros Hdir Hls Htargets. eexists. split; [|split; [reflexivity|]].
  - rewrite _get_direct_subfolders_run, Hdir.
    unfold direct_subfolders, listing_report. rewrite Hls.
    unfold say_all. rewrite app_nil_r. by destruct st.
  - intros name. rewrite list_elem_of_filter. unfold kept, junction.
    rewrite andb_true_iff, negb_true_iff. unfold link_read_succeeds.
    split.
    + intros [[Hisdir Hjunction] Hin]. split; [done|]. split; [done|].
      intros [target Hread]. rewrite Hread in Hjunction.
      destruct target; [|done]. by apply (Htargets name).
    + intros (Hin & Hisdir & Hfail). split; [|done]. split; [done|].
      destruct (os_readlink fs (os_path_join root_path name)) as [target| |];
        [|done..].
      destruct Hfail. by exists target.
Qed.

Lemma subfolder_kept_iff_witness :
  _get_direct_subfolders fs_with_link (py "R") (mk_state [] true [])
  = (Ret [py "real"], mk_state [] true []).
Proof.
  destruct (subfolder_kept_iff fs_with_link (py "R")
              [py "real"; py "lnk"; py "file.txt"] (mk_state [] true []))
    as (subfolders & Hrun & -> & _).
  - by vm_compute.
  - by vm_compute.
  - intros name Hin. rewrite !elem_of_cons in Hin.
    destruct Hin as [->|[->|[->|Hin]]];
      [by vm_compute..|by apply elem_of_nil in Hin].
  - rewrite Hrun. by vm_compute.
Defined.

(** ** The models of [str] and of [pathlib] on a few inputs *)

Example strip_examples :
  strip (py "  Sam Doe  ") = py "Sam Doe"
  ∧ strip (9 :: 160 :: py "Sam" ++ [8232; 10]) = py "Sam"
  ∧ strip (py " ") = [].
Proof. by vm_compute. Qed.

Example Path_examples :
  Path_str {| _raw_paths := [py "/srv//media/./"; py "Alice"] |}
  = py "/srv/media/Alice"
  ∧ Path_name {| _raw_paths := [py "/srv//media/./"; py "Alice"] |} = py "Alice"
  ∧ Path_str {| _raw_paths := [py "//srv"] |} = py "//srv"
  ∧ Path_str {| _raw_paths := [py "///srv"] |} = py "/srv"
  ∧ Path_str {| _raw_paths := [py ""] |} = py "."
  ∧ Path_name {| _raw_paths := [py "/"] |} = py ""
  ∧ Path_str {| _raw_paths := [py "R1"; py "/abs"] |} = py "/abs".
Proof. by vm_compute. Qed.

(** ** pathlib: parsing the string of a path gives the path back *)

Lemma split_nonempty (s : pystr) : split s <> [].
Proof.
  induction s as [|c s IH]; cbn [split]; [done|].
  destruct (c =? sep); [done|]. by destruct (split s).
Qed.

Lemma split_no_sep (s : pystr) : Forall (fun x => sep ∉ x) (split s).
Proof.
  induction s as [|c s IH]; cbn [split].
  - constructor; [apply not_elem_of_nil | constructor].
  - destruct (N.eqb_spec c sep) as [->|Hne].
    + constructor; [apply not_elem_of_nil | done].
    + pose proof (split_nonempty s) as Hs.
      destruct (split s) as [|x xs]; [done|].
      apply Forall_cons in IH as [Hx Hxs].
      constructor; [|done]. apply not_elem_of_cons. split; [congruence|done].
Qed.

Lemma split_single (x : pystr) : sep ∉ x -> split x = [x].
Proof.
  induction x as [|c x IH]; intros H; cbn [split]; [done|].
  apply not_elem_of_cons in H as [Hc Hx].
  destruct (N.eqb_spec c sep); [congruence|]. by rewrite IH.
Qed.

Lemma split_app_sep (x r : pystr) :
  sep ∉ x -> split (x ++ sep :: r) = x :: split r.
Proof.
  induction x as [|c x IH]; intros H; cbn [app split].
  - by rewrite N.eqb_refl.
  - apply not_elem_of_cons in H as [Hc Hx].
    destruct (N.eqb_spec c sep); [congruence|]. by rewrite IH.
Qed.

Lemma split_sep_join (tail : list pystr) :
  tail <> [] -> Forall (fun x => sep ∉ x) tail -> split (sep_join tail) = tail.
Proof.
  induction tail as [|x tail IH]; [done|]. intros _ Hall.
  apply Forall_cons in Hall as [Hx Hall].
  destruct tail as [|y tail].
  - cbn [sep_join]. by apply split_single.
  - change (sep_join (x :: y :: tail)) with (x ++ sep :: sep_join (y :: tail)).
    rewrite split_app_sep by done. f_equal. by apply IH.
Qed.

Lemma filter_components_id (tail : list pystr) :
  Forall component_ok tail ->
  filter (fun x => is_component x = true) tail = tail.
Proof.
  induction 1 as [|x tail [Hx _] _ IH]; [done|].
  rewrite filter_cons_True by done. by rewrite IH.
Qed.

(** The relative part of a formatted path parses back to the tail. *)
Lemma parse_sep_join (tail : list pystr) :
  Forall component_ok tail ->
  filter (fun x => is_component x = true) (split (sep_join tail)) = tail.
Proof.
  intros Hall. destruct tail as [|x tail]; [reflexivity|].
  rewrite split_sep_join; [by apply filter_components_id|done|].
  eapply Forall_impl; [exact Hall|]. by intros y [_ ?].
Qed.

(** A formatted tail starts with the first character of its first
    component, which is not the separator. *)
Lemma sep_join_head (x : pystr) (tail : list pystr) :
  component_ok x ->
  exists c r, sep_join (x :: tail) = c :: r ∧ c <> sep.
Proof.
  intros [Hcomp Hsep]. destruct x as [|c x]; [done|].
  apply not_elem_of_cons in Hsep as [Hc _].
  destruct tail as [|y tail].
  - exists c, x. split; [done|congruence].
  - exists c, (x ++ sep :: sep_join (y :: tail)). split; [done|congruence].
Qed.

Lemma sep_join_startswith (tail : list pystr) :
  Forall component_ok tail -> startswith_sep (sep_join tail) = false.
Proof.
  intros Hall. destruct tail as [|x tail]; [reflexivity|].
  apply Forall_cons in Hall as [Hx _].
  destruct (sep_join_head x tail Hx) as (c & r & -> & Hc).
  cbn [startswith_sep]. by apply N.eqb_neq.
Qed.

Lemma splitroot_ok (path : pystr) :
  fst (splitroot path) ∈ [[]; [sep]; [sep; sep]].
Proof.
  unfold splitroot.
  destruct path as [|c1 [|c2 p2]]; cbn [fst]; [set_solver| |].
  - destruct (c1 =? sep); cbn [fst]; set_solver.
  - destruct (c1 =? sep); [|cbn [fst]; set_solver].
    destruct (c2 =? sep); [|cbn [fst]; set_solver].
    destruct (startswith_sep p2); cbn [fst]; set_solver.
Qed.

Lemma _parse_path_ok (path : pystr) :
  parsed_ok (fst (_parse_path path)) (snd (_parse_path path)).
Proof.
  unfold _parse_path.
  destruct (truthy path); cbn [negb]; [|split; [set_solver|constructor]].
  pose proof (splitroot_ok path) as Hroot.
  destruct (splitroot path) as [root rel]. cbn [fst snd] in *.
  split; [done|]. apply Forall_forall. intros x Hx.
  apply list_elem_of_filter in Hx as [Hcomp Hin]. split; [done|].
  pose proof (split_no_sep rel) as Hns. rewrite Forall_forall in Hns. auto.
Qed.

(** Formatting a parsed path and parsing the string again. *)
Lemma _parse_path_format (root : pystr) (tail : list pystr) :
  parsed_ok root tail ->
  _parse_path (let s := _format_parsed_parts root tail in
               if truthy s then s else dot)
  = (root, tail).
Proof.
  intros [Hroot Hall]. cbn zeta.
  pose proof (parse_sep_join tail Hall) as Hparse.
  pose proof (sep_join_startswith tail Hall) as Hstart.
  unfold _format_parsed_parts.
  apply elem_of_cons in Hroot as [->|Hroot];
    [|apply elem_of_cons in Hroot as [->|Hroot];
      [|apply list_elem_of_singleton in Hroot as ->]].
  - cbn [truthy]. destruct tail as [|x tail]; [reflexivity|].
    apply Forall_cons in Hall as [Hx _].
    destruct (sep_join_head x tail Hx) as (c & r & Hjoin & Hc).
    rewrite Hjoin in *. cbn [truthy]. unfold _parse_path, splitroot.
    cbn [truthy negb]. apply N.eqb_neq in Hc. rewrite Hc. by rewrite Hparse.
  - cbn [truthy app]. unfold _parse_path, splitroot. cbn [truthy negb].
    rewrite N.eqb_refl. destruct (sep_join tail) as [|c2 p2] eqn:Hjoin.
    + by rewrite Hparse.
    + cbn [startswith_sep] in Hstart. rewrite Hstart. by rewrite Hparse.
  - cbn [truthy app]. unfold _parse_path, splitroot. cbn [truthy negb].
    rewrite !N.eqb_refl, Hstart. by rewrite Hparse.
Qed.

Lemma Path_parts_roundtrip (p : Path) :
  Path_parts {| _raw_paths := [Path_str p] |} = Path_parts p.
Proof.
  unfold Path_str. unfold Path_parts at 1. cbn [_raw_paths posixpath_join foldl].
  pose proof (_parse_path_ok (posixpath_join (_raw_paths p))) as Hok.
  fold (Path_parts p) in Hok. destruct (Path_parts p) as [root tail].
  by apply _parse_path_format.
Qed.

(** [str(Path(str(p))) == str(p)] and [Path(str(p)).name == p.name]. *)
Lemma Path_str_roundtrip (p : Path) :
  Path_str {| _raw_paths := [Path_str p] |} = Path_str p.
Proof. unfold Path_str at 1 3. by rewrite Path_parts_roundtrip. Qed.

Lemma Path_name_roundtrip (p : Path) :
  Path_name {| _raw_paths := [Path_str p] |} = Path_name p.
Proof. unfold Path_name. by rewrite Path_parts_roundtrip. Qed.

(** [str(p)] is never empty. *)
Lemma Path_str_truthy (p : Path) : truthy (Path_str p) = true.
Proof.
  unfold Path_str. destruct (Path_parts p) as [root tail]. cbn zeta.
  by destruct (truthy (_format_parsed_parts root tail)) eqn:H.
Qed.

(** ** The name-to-path mapping *)

Lemma build_performers_dict_snoc (paths : list Path) (p : Path) :
  build_performers_dict (paths ++ [p])
  = <[Path_name p := Path_str p]> (build_performers_dict paths).
Proof. unfold build_performers_dict. by rewrite foldl_app. Qed.

(** Every entry of the mapping comes from a path of the list. *)
Lemma build_performers_dict_lookup_Some (paths : list Path) (k v : pystr) :
  build_performers_dict paths !! k = Some v ->
  exists p, p ∈ paths ∧ Path_name p = k ∧ Path_str p = v.
Proof.
  induction paths as [|p paths IH] using rev_ind.
  - unfold build_performers_dict; cbn [foldl]. by rewrite lookup_empty.
  - rewrite build_performers_dict_snoc.
    destruct (decide (Path_name p = k)) as [<-|Hne].
    + rewrite lookup_insert_eq. intros [= <-]. exists p.
      split; [|done]. apply elem_of_app. right. by left.
    + rewrite lookup_insert_ne by done. intros H.
      destruct (IH H) as (q & Hq & ?). exists q. split; [|done].
      apply elem_of_app. by left.
Qed.

(** Paths of other names do not change what is stored under a name. *)
Lemma build_performers_dict_app_ne (l1 l2 : list Path) (k : pystr) :
  Forall (fun q => Path_name q <> k) l2 ->
  build_performers_dict (l1 ++ l2) !! k = build_performers_dict l1 !! k.
Proof.
  induction l2 as [|q l2 IH] using rev_ind; intros Hall.
  - by rewrite app_nil_r.
  - apply Forall_app in Hall as [Hall Hq]. rewrite Forall_singleton in Hq.
    rewrite app_assoc, build_performers_dict_snoc.
    rewrite lookup_insert_ne by done. by apply IH.
Qed.

Lemma build_performers_dict_last (l1 l2 : list Path) (p : Path) :
  Forall (fun q => Path_name q <> Path_name p) l2 ->
  build_performers_dict (l1 ++ p :: l2) !! Path_name p = Some (Path_str p).
Proof.
  intros Hall. rewrite (cons_middle p l1 l2), app_assoc.
  rewrite build_performers_dict_app_ne by done.
  rewrite build_performers_dict_snoc. apply lookup_insert_eq.
Qed.

Lemma filter_none {A} (P : A -> Prop) `{!forall x, Decision (P x)} (l : list A) :
  Forall (fun x => ¬ P x) l -> filter P l = [].
Proof.
  induction 1 as [|x l Hx _ IH]; [done|]. by rewrite filter_cons_False.
Qed.

(** A map holds one entry per key. *)
Lemma entries_for_lookup (d : gmap (list N) (list N)) (k v : pystr) :
  d !! k = Some v -> entries_for k d = [(k, v)].
Proof.
  intros Hk. unfold entries_for.
  apply Permutation_singleton_r.
  rewrite <- (insert_id d k v Hk), <- insert_delete_eq.
  rewrite map_to_list_insert by apply lookup_delete_eq.
  rewrite filter_cons_True by done.
  rewrite filter_none; [done|].
  apply Forall_forall. intros [k' v'] Hin Heq. cbn [fst] in Heq. subst k'.
  apply elem_of_map_to_list in Hin. by rewrite lookup_delete_eq in Hin.
Qed.

(** C4: when several collected entries share a base name, the mapping
    built by [choose_performer] holds exactly one entry for that name, and
    its path is the string of the entry that comes last in the list. *)
Theorem duplicate_names_last_wins (l1 l2 : list Path) (p : Path) :
  Forall (fun q => Path_name q <> Path_name p) l2 ->
  let d := build_performers_dict (l1 ++ p :: l2) in
  d !! Path_name p = Some (Path_str p)
  ∧ entries_for (Path_name p) d = [(Path_name p, Path_str p)].
Proof.
  intros Hall d.
  assert (Hlast : d !! Path_name p = Some (Path_str p))
    by by apply build_performers_dict_last.
  split; [done|]. by apply entries_for_lookup.
Qed.

Lemma duplicate_names_last_wins_witness :
  let paths :=
    [ {| _raw_paths := [py "R1"; py "Sam"] |};
      {| _raw_paths := [py "R2"; py "Sam"] |} ] in
  fst (get_performer_paths fs_two_sams (mk_state [py "R1"; py "R2"] true []))
  = Ret paths
  ∧ build_performers_dict paths !! py "Sam" = Some (py "R2/Sam")
  ∧ entries_for (py "Sam") (build_performers_dict paths)
    = [(py "Sam", py "R2/Sam")].
Proof.
  intros paths. split; [by vm_compute|].
  exact (duplicate_names_last_wins
           [ {| _raw_paths := [py "R1"; py "Sam"] |} ] []
           {| _raw_paths := [py "R2"; py "Sam"] |} (Forall_nil_2 _)).
Defined.

(** ** The interactive loop *)

(** [p.exists() and p.is_dir()], run. *)
Lemma exists_and_is_dir_run stat (p : Path) st :
  (found <- Path_exists stat p ;;
   if found then Path_is_dir stat p else ret false) st
  = os_call (exists_and_is_dir stat (Path_str p)) st.
Proof.
  unfold Path_exists, Path_is_dir, exists_and_is_dir, bind.
  by destruct (path_exists stat (Path_str p)) as [[|]| |].
Qed.

Section Loop.
Context (performers_dict : gmap (list N) (list N)).
Context (roots : list pystr) (full : bool).

(** One iteration of the loop. *)
Lemma choose_performer_loop_step ev script out :
  choose_performer_loop performers_dict (ev :: script) (mk_state roots full out)
  = match visit performers_dict full ev with
    | Accepted v => (Ret v, mk_state roots full out)
    | Rejected msg =>
        choose_performer_loop performers_dict script
          (mk_state roots full (out ++ [msg]))
    | Cancelled =>
        (Raise (SystemExit 1), mk_state roots full (out ++ [msg_exiting]))
    | Crashed e => (Raise e, mk_state roots full out)
    end.
Proof.
  cbn [choose_performer_loop]. unfold bind at 1. unfold try_except.
  destruct ev as [line fs| |]; [|reflexivity..].
  unfold choose_performer_body, visit. cbn [prompt stat_at]. rewrite bind_ret.
  unfold bind at 1. rewrite _is_valid_performer_name_run.
  destruct (first_failing_check (strip line)) as [msg|]; [reflexivity|].
  cbn [negb].
  destruct (performers_dict !! strip line) as [chosen_path|]; [|reflexivity].
  destruct (truthy chosen_path); cbn [negb]; [|reflexivity].
  unfold bind at 1. rewrite exists_and_is_dir_run.
  by destruct (exists_and_is_dir fs (Path_str {| _raw_paths := [chosen_path] |}))
    as [[|]| |].
Qed.

Lemma rejected_visit ev msg :
  rejected performers_dict ev msg ->
  visit performers_dict full ev = Rejected msg.
Proof.
  destruct 1 as [line fs msg Hcheck|line fs Hvalid Hnone
                |line fs chosen_path Hvalid Hsome Htruthy Hgone];
    cbn [visit].
  - by rewrite Hcheck.
  - apply first_failing_check_None in Hvalid. by rewrite Hvalid, Hnone.
  - apply first_failing_check_None in Hvalid.
    rewrite Hvalid, Hsome, Htruthy. cbn [negb]. by rewrite Hgone.
Qed.

(** A run of rejected submissions prints their messages and leaves the
    loop at the prompt, ready for what follows. *)
Lemma choose_performer_loop_rejected
    (bad : list prompt_event) (msgs : list pystr) script out :
  Forall2 (rejected performers_dict) bad msgs ->
  choose_performer_loop performers_dict (bad ++ script) (mk_state roots full out)
  = choose_performer_loop performers_dict script
      (mk_state roots full (out ++ msgs)).
Proof.
  intros Hrej. revert out.
  induction Hrej as [|ev msg bad msgs Hev _ IH]; intros out.
  - by rewrite app_nil_r.
  - cbn [app]. rewrite choose_performer_loop_step.
    rewrite (rejected_visit _ _ Hev). rewrite IH.
    by rewrite <- app_assoc.
Qed.

Lemma visit_Cancelled ev :
  visit performers_dict full ev = Cancelled -> ev = Interrupt.
Proof.
  destruct ev as [line fs| |]; [|done..]. cbn [visit].
  destruct (first_failing_check (strip line)); [done|].
  destruct (performers_dict !! strip line) as [chosen_path|]; [|done].
  destruct (truthy chosen_path); cbn [negb]; [|done].
  by destruct (exists_and_is_dir fs (Path_str {| _raw_paths := [chosen_path] |}))
    as [[|]| |].
Qed.

(** An exception that leaves the loop is the end of the input at the
    prompt, or the failure of the look at the mapped path. *)
Lemma visit_Crashed ev e :
  visit performers_dict full ev = Crashed e ->
  (ev = EndOfInput ∧ e = EOFError)
  ∨ exists line fs chosen_path,
      ev = Submit line fs
      ∧ first_failing_check (strip line) = None
      ∧ performers_dict !! strip line = Some chosen_path
      ∧ os_exn (exists_and_is_dir fs (Path_str {| _raw_paths := [chosen_path] |}))
        = Some e.
Proof.
  destruct ev as [line fs| |]; [|done|intros [= <-]; by left]. cbn [visit].
  destruct (first_failing_check (strip line)) eqn:Hcheck; [done|].
  destruct (performers_dict !! strip line) as [chosen_path|] eqn:Hsome; [|done].
  destruct (truthy chosen_path); cbn [negb]; [|done].
  destruct (exists_and_is_dir fs (Path_str {| _raw_paths := [chosen_path] |}))
    as [[|]|m|m] eqn:Hstat; [done..| |];
    intros [= <-]; right; exists line, fs, chosen_path;
    by rewrite Hstat.
Qed.

Lemma visit_Accepted ev v :
  visit performers_dict full ev = Accepted v ->
  exists line fs chosen_path,
    ev = Submit line fs
    ∧ performers_dict !! strip line = Some chosen_path
    ∧ v = if full then VPath {| _raw_paths := [chosen_path] |}
          else VStr (Path_name {| _raw_paths := [chosen_path] |}).
Proof.
  destruct ev as [line fs| |]; [|done..]. cbn [visit].
  destruct (first_failing_check (strip line)); [done|].
  destruct (performers_dict !! strip line) as [chosen_path|] eqn:Hsome; [|done].
  destruct (truthy chosen_path); cbn [negb]; [|done].
  destruct (exists_and_is_dir fs (Path_str {| _raw_paths := [chosen_path] |}))
    as [[|]| |]; [|done..].
  intros [= <-]. exists line, fs, chosen_path. done.
Qed.

End Loop.

(** C7: when the trimmed input is valid, is a key of the mapping, and the
    mapped path exists as a directory, [choose_performer] returns at once:
    the path object of the mapped path, whose string is that of the
    collected entry [Path(root, name)], when [return_full_path] is true,
    and the entry's base name when it is false. *)
Theorem accepted_returns_path_or_name paths line fs script roots full out
    (chosen_path : pystr) :
  valid_name_spec (strip line) ->
  build_performers_dict paths !! strip line = Some chosen_path ->
  path_exists fs chosen_path = OsOk true ->
  path_is_dir fs chosen_path = OsOk true ->
  exists p,
    p ∈ paths ∧ Path_name p = strip line ∧ Path_str p = chosen_path
    ∧ choose_performer paths (Submit line fs :: script) (mk_state roots full out)
      = (Ret (if full then VPath {| _raw_paths := [Path_str p] |}
              else VStr (Path_name p)),
         mk_state roots full out)
    ∧ Path_str {| _raw_paths := [Path_str p] |} = Path_str p.
Proof.
  intros Hvalid Hsome Hexists Hdir.
  destruct (build_performers_dict_lookup_Some _ _ _ Hsome)
    as (p & Hin & Hname & Hstr).
  exists p. split; [done|]. split; [done|]. split; [done|].
  split; [|apply Path_str_roundtrip].
  unfold choose_performer. rewrite choose_performer_loop_step. cbn [visit].
  apply first_failing_check_None in Hvalid. rewrite Hvalid, Hsome.
  subst chosen_path. rewrite Path_str_truthy. cbn [negb].
  unfold exists_and_is_dir. rewrite Path_str_roundtrip.
  rewrite Hexists, Hdir. by rewrite Path_name_roundtrip.
Qed.

Lemma accepted_returns_path_or_name_witness :
  let entries :=
    [ {| _raw_paths := [py "R1"; py "Alice"] |};
      {| _raw_paths := [py "R2"; py "Bob"] |} ] in
  fst (choose_performer entries [Submit (py " Alice ") all_present]
         (mk_state [py "R1"; py "R2"] true []))
  = Ret (VPath {| _raw_paths := [py "R1/Alice"] |})
  ∧ fst (choose_performer entries [Submit (py " Alice ") all_present]
           (mk_state [py "R1"; py "R2"] false []))
    = Ret (VStr (py "Alice")).
Proof.
  intros entries.
  assert (Hvalid : valid_name_spec (strip (py " Alice ")))
    by (apply first_failing_check_None; by vm_compute).
  assert (Hsome : build_performers_dict entries !! strip (py " Alice ")
                  = Some (py "R1/Alice")) by (by vm_compute).
  split.
  - destruct (accepted_returns_path_or_name entries (py " Alice ") all_present
                [] [py "R1"; py "R2"] true [] (py "R1/Alice")
                Hvalid Hsome eq_refl eq_refl)
      as (p & _ & _ & Hstr & Hrun & _).
    rewrite Hrun, Hstr. reflexivity.
  - destruct (accepted_returns_path_or_name entries (py " Alice ") all_present
                [] [py "R1"; py "R2"] false [] (py "R1/Alice")
                Hvalid Hsome eq_refl eq_refl)
      as (p & _ & Hname & _ & Hrun & _).
    rewrite Hrun, Hname. by vm_compute.
Defined.

(** C8, as stated, fails: the loop also ends with an exception it does
    not catch.  At the end of the input the prompt raises [EOFError], and
    the look at the mapped path can raise [PermissionError]; the only
    [except] clause is for [KeyboardInterrupt]. *)
Lemma loop_ends_with_uncaught_exception :
  choose_performer two_entries [EndOfInput]
    (mk_state [py "R1"; py "R2"] true [])
  = (Raise EOFError, mk_state [py "R1"; py "R2"] true [])
  ∧ choose_performer two_entries [Submit (py "Alice") all_denied]
      (mk_state [py "R1"; py "R2"] true [])
    = (Raise (PermissionError (py "[Errno 13] Permission denied")),
       mk_state [py "R1"; py "R2"] true []).
Proof. split; by vm_compute. Qed.

(** C8, amended: the loop ends by returning a value, on an interrupt by
    printing the notice and exiting with status 1, or with an exception it
    does not catch: [EOFError] from the prompt at the end of the input, or
    the [OSError] that [exists()] or [is_dir()] raises for the mapped
    path.  A submitted line whose trimmed form is invalid, is not a key of
    the mapping, or is mapped to a path that [exists() and is_dir()] finds
    not to be an existing directory prints its message (one of the three
    validation messages, "invalid choice", "does not exist") and the loop
    goes on with the next visit of the prompt; this holds for any number of
    such lines in a row, after which the loop is still waiting at the
    prompt. *)
Theorem loop_reprompts_until_accepted_or_cancelled paths roots full out :
  let d := build_performers_dict paths in
  let run script out := choose_performer paths script (mk_state roots full out) in
  (forall line fs script,
      ¬ valid_name_spec (strip line) ->
      exists msg,
        msg ∈ [msg_empty; msg_invalid_characters; msg_too_long]
        ∧ run (Submit line fs :: script) out = run script (out ++ [msg]))
  ∧ (forall line fs script,
        valid_name_spec (strip line) ->
        d !! strip line = None ->
        run (Submit line fs :: script) out
        = run script (out ++ [msg_invalid_choice]))
  ∧ (forall line fs script chosen_path,
        valid_name_spec (strip line) ->
        d !! strip line = Some chosen_path ->
        exists_and_is_dir fs chosen_path = OsOk false ->
        run (Submit line fs :: script) out
        = run script (out ++ [msg_does_not_exist]))
  ∧ (forall bad msgs script,
        Forall2 (rejected d) bad msgs ->
        run (bad ++ script) out = run script (out ++ msgs)
        ∧ run bad out = (Blocked, mk_state roots full (out ++ msgs)))
  ∧ (forall script,
        run (Interrupt :: script) out
        = (Raise (SystemExit 1), mk_state roots full (out ++ [msg_exiting])))
  ∧ (forall script,
        run (EndOfInput :: script) out
        = (Raise EOFError, mk_state roots full out))
  ∧ (forall line fs script chosen_path e,
        valid_name_spec (strip line) ->
        d !! strip line = Some chosen_path ->
        os_exn (exists_and_is_dir fs chosen_path) = Some e ->
        run (Submit line fs :: script) out
        = (Raise e, mk_state roots full out))
  ∧ (forall script e st',
        run script out = (Raise e, st') ->
        (e = SystemExit 1 ∧ Interrupt ∈ script)
        ∨ (e = EOFError ∧ EndOfInput ∈ script)
        ∨ exists line fs chosen_path,
            Submit line fs ∈ script
            ∧ d !! strip line = Some chosen_path
            ∧ os_exn (exists_and_is_dir fs chosen_path) = Some e).
Proof.
  intros d run. unfold run, choose_performer. fold d.
  split; [|split; [|split; [|split; [|split; [|split; [|split]]]]]].
  - intros line fs script Hinvalid.
    destruct (first_failing_check (strip line)) as [msg|] eqn:Hcheck.
    + exists msg. split.
      * exact (first_failing_check_lines _ _ Hcheck).
      * rewrite choose_performer_loop_step.
        by rewrite (rejected_visit d full _ msg (rejected_invalid _ _ _ _ Hcheck)).
    + by apply first_failing_check_None in Hcheck.
  - intros line fs script Hvalid Hnone.
    rewrite choose_performer_loop_step.
    by rewrite (rejected_visit d full _ _ (rejected_unknown _ _ fs Hvalid Hnone)).
  - intros line fs script chosen_path Hvalid Hsome Hgone.
    destruct (build_performers_dict_lookup_Some _ _ _ Hsome)
      as (p & _ & _ & <-).
    rewrite choose_performer_loop_step.
    rewrite (rejected_visit d full _ msg_does_not_exist); [done|].
    eapply rejected_stale; [done..|apply Path_str_truthy|].
    by rewrite Path_str_roundtrip.
  - intros bad msgs script Hrej. split.
    + by apply choose_performer_loop_rejected.
    + rewrite <- (app_nil_r bad).
      by rewrite (choose_performer_loop_rejected d roots full bad msgs [] out).
  - intros script. by rewrite choose_performer_loop_step.
  - intros script. by rewrite choose_performer_loop_step.
  - intros line fs script chosen_path e Hvalid Hsome Hexn.
    destruct (build_performers_dict_lookup_Some _ _ _ Hsome)
      as (p & _ & _ & <-).
    rewrite choose_performer_loop_step. cbn [visit].
    apply first_failing_check_None in Hvalid. rewrite Hvalid, Hsome.
    rewrite Path_str_truthy. cbn [negb]. rewrite Path_str_roundtrip.
    destruct (exists_and_is_dir fs (Path_str p)) as [b|m|m];
      [done|by injection Hexn as <-..].
  - intros script. revert out.
    induction script as [|ev script IH]; intros out e st'; [done|].
    rewrite choose_performer_loop_step.
    destruct (visit d full ev) as [v|msg| |e'] eqn:Hvisit.
    + done.
    + intros H. destruct (IH _ _ _ H)
        as [[-> Hin]|[[-> Hin]|(line & fs & chosen_path & Hin & ?)]].
      * left. split; [done|]. by right.
      * right. left. split; [done|]. by right.
      * right. right. exists line, fs, chosen_path. split; [by right|done].
    + intros [= <- <-]. apply visit_Cancelled in Hvisit as ->.
      left. split; [done|]. by left.
    + intros [= <- <-]. apply visit_Crashed in Hvisit
        as [[-> ->]|(line & fs & chosen_path & -> & _ & Hsome & Hexn)].
      * right. left. split; [done|]. by left.
      * right. right. exists line, fs, chosen_path. split; [by left|].
        split; [done|].
        destruct (build_performers_dict_lookup_Some _ _ _ Hsome)
          as (p & _ & _ & <-).
        by rewrite Path_str_roundtrip in Hexn.
Qed.

Lemma four_bad_visits_rejected :
  Forall2 (rejected (build_performers_dict two_entries)) four_bad_visits
    [msg_empty; msg_invalid_characters; msg_invalid_choice; msg_does_not_exist].
Proof.
  constructor; [|constructor; [|constructor; [|constructor; [|constructor]]]].
  - apply rejected_invalid. by vm_compute.
  - apply rejected_invalid. by vm_compute.
  - apply rejected_unknown; [|by vm_compute].
    apply first_failing_check_None. by vm_compute.
  - apply (rejected_stale _ _ _ (py "R1/Alice")); [|by vm_compute..].
    apply first_failing_check_None. by vm_compute.
Qed.

Lemma loop_reprompts_until_accepted_or_cancelled_witness :
  let msgs :=
    [msg_empty; msg_invalid_characters; msg_invalid_choice; msg_does_not_exist] in
  choose_performer two_entries
    (four_bad_visits ++ [Submit (py "Bob") all_present])
    (mk_state [py "R1"; py "R2"] true [])
  = (Ret (VPath {| _raw_paths := [py "R2/Bob"] |}),
     mk_state [py "R1"; py "R2"] true msgs)
  ∧ choose_performer two_entries four_bad_visits
      (mk_state [py "R1"; py "R2"] true [])
    = (Blocked, mk_state [py "R1"; py "R2"] true msgs).
Proof.
  intros msgs.
  destruct (loop_reprompts_until_accepted_or_cancelled two_entries
              [py "R1"; py "R2"] true [])
    as (_ & _ & _ & Hbad & _ & _).
  destruct (Hbad four_bad_visits msgs [Submit (py "Bob") all_present]
              four_bad_visits_rejected) as [Hgo Hwait].
  split; [|exact Hwait]. rewrite Hgo. by vm_compute.
Defined.

(** C9: whenever [choose_performer] returns, the value comes from an
    element of [performers_paths]: some submitted line, trimmed, is the
    base name of an element [p] of the list; with [return_full_path] true
    the returned path has the same string as [p], with [return_full_path]
    false the returned string is the base name of [p], which is the
    trimmed input. *)
Theorem returned_value_is_collected paths script roots full out v st' :
  choose_performer paths script (mk_state roots full out) = (Ret v, st') ->
  exists p before line fs after,
    script = before ++ Submit line fs :: after
    ∧ p ∈ paths
    ∧ Path_name p = strip line
    ∧ if full then exists q, v = VPath q ∧ Path_str q = Path_str p
      else v = VStr (Path_name p).
Proof.
  unfold choose_performer. revert out.
  induction script as [|ev script IH]; intros out; [done|].
  rewrite choose_performer_loop_step.
  destruct (visit (build_performers_dict paths) full ev) as [w|msg| |e]
    eqn:Hvisit.
  - intros [= -> <-].
    apply visit_Accepted in Hvisit as (line & fs & chosen_path & -> & Hsome & ->).
    destruct (build_performers_dict_lookup_Some _ _ _ Hsome)
      as (p & Hin & Hname & <-).
    exists p, [], line, fs, script. split; [done|]. split; [done|].
    split; [done|]. destruct full.
    + eexists. split; [done|]. apply Path_str_roundtrip.
    + by rewrite Path_name_roundtrip.
  - intros H. destruct (IH _ H) as (p & before & line & fs & after & -> & ?).
    by exists p, (ev :: before), line, fs, after.
  - done.
  - done.
Qed.

Lemma returned_value_is_collected_witness :
  exists p before line fs after,
    four_bad_visits ++ [Submit (py " Bob ") all_present]
    = before ++ Submit line fs :: after
    ∧ p ∈ two_entries
    ∧ Path_name p = strip line
    ∧ VStr (py "Bob") = VStr (Path_name p).
Proof.
  apply (returned_value_is_collected two_entries
           (four_bad_visits ++ [Submit (py " Bob ") all_present])
           [py "R1"; py "R2"] false [] (VStr (py "Bob"))
           (mk_state [py "R1"; py "R2"] false
              [msg_empty; msg_invalid_characters; msg_invalid_choice;
               msg_does_not_exist])).
  by vm_compute.
Defined.

(** ** The selector object is only read *)

Lemma preserves_ret {A} (a : A) : preserves_self (ret a).
Proof. by intros st. Qed.

Lemma preserves_raise {A} e : preserves_self (@raise A e).
Proof. by intros st. Qed.

Lemma preserves_blocked {A} : preserves_self (@blocked A).
Proof. by intros st. Qed.

Lemma preserves_print line : preserves_self (print line).
Proof. by intros st. Qed.

Lemma preserves_getattr {A} (f : PerformerSelector -> A) :
  preserves_self (getattr f).
Proof. by intros st. Qed.

Lemma preserves_os_call {A} (r : os_result A) : preserves_self (os_call r).
Proof. by destruct r; intros st. Qed.

Lemma preserves_bind {A B} (m : M A) (k : A -> M B) :
  preserves_self m -> (forall a, preserves_self (k a)) ->
  preserves_self (bind m k).
Proof.
  intros Hm Hk st. unfold bind. specialize (Hm st).
  destruct (m st) as [[a|e|] st1]; cbn [snd] in *; [|done..].
  by rewrite Hk.
Qed.

Lemma preserves_find_handler {A} e (hs : list (exn_class * (exn -> M A))) h :
  Forall (fun ch => forall e', preserves_self (snd ch e')) hs ->
  find_handler e hs = Some h -> preserves_self h.
Proof.
  induction 1 as [|[c h'] hs Hh _ IH]; cbn [find_handler]; [done|].
  destruct (isinstance e c); [|done]. intros [= <-]. apply Hh.
Qed.

Lemma preserves_try_except {A} (body : M A) hs :
  preserves_self body ->
  Forall (fun ch => forall e', preserves_self (snd ch e')) hs ->
  preserves_self (try_except body hs).
Proof.
  intros Hbody Hhs st. unfold try_except. specialize (Hbody st).
  destruct (body st) as [[a|e|] st1]; cbn [snd] in *; [done| |done].
  destruct (find_handler e hs) as [h|] eqn:Hfind; [|done].
  by rewrite (preserves_find_handler _ _ _ Hhs Hfind).
Qed.

Lemma preserves_comprehension_if {A} (cond : A -> M bool) (l : list A) :
  (forall x, preserves_self (cond x)) ->
  preserves_self (comprehension_if cond l).
Proof.
  intros Hcond. induction l as [|x l IH]; cbn [comprehension_if].
  - apply preserves_ret.
  - apply preserves_bind; [done|]. intros b.
    apply preserves_bind; [done|]. intros rest. apply preserves_ret.
Qed.

Lemma preserves_for_each {A B} (l : list A) (acc : B) (body : B -> A -> M B) :
  (forall acc' x, preserves_self (body acc' x)) ->
  preserves_self (for_each l acc body).
Proof.
  intros Hbody. revert acc. induction l as [|x l IH]; intros acc;
    cbn [for_each].
  - apply preserves_ret.
  - apply preserves_bind; [done|]. intros acc'. apply IH.
Qed.

Create HintDb frame.
#[local] Hint Resolve preserves_ret preserves_raise preserves_blocked
  preserves_print preserves_getattr preserves_os_call : frame.

(** Walk through a method body: binds, branches and the primitives. *)
Ltac frame :=
  repeat first
    [ solve [auto with frame]
    | apply preserves_bind; [|intros ?]
    | apply preserves_try_except
    | apply Forall_cons; split; [intros ?; cbn [snd]|]
    | apply Forall_nil_2
    | match goal with
      | |- preserves_self (if ?b then _ else _) => destruct b
      | |- preserves_self (match ?x with _ => _ end) => destruct x
      end ].

Lemma preserves__is_valid_performer_name name :
  preserves_self (_is_valid_performer_name name).
Proof. unfold _is_valid_performer_name. frame. Qed.

Lemma preserves__is_junction fs path : preserves_self (_is_junction fs path).
Proof. unfold _is_junction. frame. Qed.

Lemma preserves__get_direct_subfolders fs root_path :
  preserves_self (_get_direct_subfolders fs root_path).
Proof.
  unfold _get_direct_subfolders. frame.
  apply preserves_comprehension_if. intros name.
  pose proof (preserves__is_junction fs (os_path_join root_path name)).
  frame.
Qed.

Lemma preserves_get_performer_paths fs :
  preserves_self (get_performer_paths fs).
Proof.
  unfold get_performer_paths. frame.
  apply preserves_for_each. intros acc root_dir.
  pose proof (preserves__get_direct_subfolders fs root_dir). frame.
Qed.

Lemma preserves_choose_performer_body performers_dict ev :
  preserves_self (choose_performer_body performers_dict ev).
Proof.
  unfold choose_performer_body, prompt, Path_exists, Path_is_dir.
  pose proof preserves__is_valid_performer_name. frame.
Qed.

Lemma preserves_choose_performer_loop performers_dict script :
  preserves_self (choose_performer_loop performers_dict script).
Proof.
  induction script as [|ev script IH]; cbn [choose_performer_loop].
  - apply preserves_blocked.
  - pose proof (preserves_choose_performer_body performers_dict ev).
    unfold exit. frame.
Qed.

(** C10: a call of [get_performer_paths] or of [choose_performer], however
    it ends, leaves the selector object as it was; after construction the
    four attributes keep the values [__init__] gave them. *)
Theorem configuration_is_not_mutated fs paths script :
  (forall st,
      self (snd (get_performer_paths fs st)) = self st
      ∧ self (snd (choose_performer paths script st)) = self st)
  ∧ (forall roots full out,
        let after_scan :=
          self (snd (get_performer_paths fs (mk_state roots full out))) in
        let after_choice :=
          self (snd (choose_performer paths script (mk_state roots full out))) in
        (performers_root_directories after_scan = roots
         ∧ return_full_path after_scan = full
         ∧ allowed_characters after_scan
           = list_to_set (ascii_letters ++ digits ++ py " .()_[]-")
         ∧ performer_length_limit after_scan = 100%Z)
        ∧ (performers_root_directories after_choice = roots
           ∧ return_full_path after_choice = full
           ∧ allowed_characters after_choice
             = list_to_set (ascii_letters ++ digits ++ py " .()_[]-")
           ∧ performer_length_limit after_choice = 100%Z)).
Proof.
  assert (Hframe : forall st,
             self (snd (get_performer_paths fs st)) = self st
             ∧ self (snd (choose_performer paths script st)) = self st).
  { intros st. split.
    - apply preserves_get_performer_paths.
    - apply preserves_choose_performer_loop. }
  split; [done|]. intros roots full out after_scan after_choice.
  destruct (Hframe (mk_state roots full out)) as [Hscan Hchoice].
  unfold after_scan, after_choice. rewrite Hscan, Hchoice. done.
Qed.

(** * Further properties of the module *)

(** ** [strip] *)

Lemma lstrip_head (s : pystr) :
  lstrip s = [] ∨ exists c t, lstrip s = c :: t ∧ isspace c = false.
Proof.
  induction s as [|c s IH]; cbn [lstrip]; [by left|].
  destruct (isspace c) eqn:Hc; [done|]. right. by exists c, s.
Qed.

Lemma lstrip_idem (s : pystr) : lstrip (lstrip s) = lstrip s.
Proof.
  destruct (lstrip_head s) as [->|(c & t & -> & Hc)]; [done|].
  cbn [lstrip]. by rewrite Hc.
Qed.

Lemma lstrip_snoc (s : pystr) (c : pychar) :
  isspace c = false -> lstrip (s ++ [c]) = lstrip s ++ [c].
Proof.
  intros Hc. induction s as [|d s IH]; cbn [app lstrip].
  - by rewrite Hc.
  - by destruct (isspace d).
Qed.

Lemma rstrip_cons (c : pychar) (s : pystr) :
  isspace c = false -> rstrip (c :: s) = c :: rstrip s.
Proof.
  intros Hc. unfold rstrip.
  by rewrite reverse_cons, lstrip_snoc, reverse_app.
Qed.

Lemma rstrip_idem (s : pystr) : rstrip (rstrip s) = rstrip s.
Proof. unfold rstrip. by rewrite reverse_involutive, lstrip_idem. Qed.

(** Trimming a trimmed string changes nothing. *)
Lemma strip_idem (s : pystr) : strip (strip s) = strip s.
Proof.
  unfold strip.
  destruct (lstrip_head s) as [->|(c & t & -> & Hc)]; [done|].
  rewrite (rstrip_cons c t Hc). cbn [lstrip]. rewrite Hc.
  rewrite (rstrip_cons c _ Hc). by rewrite rstrip_idem.
Qed.

(** ** The base name of [Path(root_dir, performer)] *)

Lemma split_app (x y : pystr) : split (x ++ sep :: y) = split x ++ split y.
Proof.
  induction x as [|c x IH]; cbn [app split].
  - by rewrite N.eqb_refl.
  - destruct (c =? sep); [by rewrite IH|].
    rewrite IH. pose proof (split_nonempty x) as Hx.
    by destruct (split x).
Qed.

(** A string that is empty or ends with the separator. *)
Lemma last_sep_suffix (c : pychar) (pre : pystr) :
  pre <> [] -> last (c :: pre) = Some sep -> last pre = Some sep.
Proof. destruct pre; [done|]. by rewrite last_cons_cons. Qed.

(** Components of a string that ends with a directory entry name. *)
Lemma split_ends_with_name (pre name : pystr) :
  pre = [] ∨ last pre = Some sep ->
  component_ok name ->
  exists parts,
    filter (fun x => is_component x = true) (split (pre ++ name))
    = parts ++ [name].
Proof.
  intros Hpre [Hcomp Hsep].
  destruct Hpre as [->|Hlast].
  - exists []. cbn [app]. rewrite split_single by done.
    by rewrite filter_cons_True.
  - apply last_Some in Hlast as [q ->].
    exists (filter (fun x => is_component x = true) (split q)).
    rewrite <- app_assoc. cbn [app]. rewrite split_app, filter_app.
    rewrite (split_single name) by done. by rewrite filter_cons_True.
Qed.

(** What [splitroot] leaves of a string that ends with an entry name. *)
Lemma splitroot_ends_with_name (pre name : pystr) :
  pre = [] ∨ last pre = Some sep ->
  component_ok name ->
  exists pre',
    (pre' = [] ∨ last pre' = Some sep)
    ∧ snd (splitroot (pre ++ name)) = pre' ++ name.
Proof.
  intros Hpre [Hcomp Hsep].
  destruct name as [|n name]; [done|].
  apply not_elem_of_cons in Hsep as [Hn _].
  assert (Hneq : (n =? sep) = false) by (apply N.eqb_neq; congruence).
  destruct pre as [|c1 pre1].
  - exists []. split; [by left|]. cbn [app splitroot]. by rewrite Hneq.
  - destruct Hpre as [?|Hlast]; [done|].
    cbn [app splitroot]. destruct (c1 =? sep) eqn:Hc1.
    2:{ exists (c1 :: pre1). split; [by right|done]. }
    destruct pre1 as [|c2 pre2].
    { exists []. split; [by left|]. cbn [app]. by rewrite Hneq. }
    apply last_sep_suffix in Hlast; [|done].
    cbn [app]. destruct (c2 =? sep) eqn:Hc2.
    2:{ exists (c2 :: pre2). split; [by right|done]. }
    destruct (startswith_sep (pre2 ++ n :: name)) eqn:Hstart.
    { exists (c2 :: pre2). split; [by right|done]. }
    exists pre2. split; [|done].
    destruct pre2 as [|c3 pre3]; [by left|]. right.
    by apply last_sep_suffix in Hlast.
Qed.

(** The joined string ends with the name, after nothing or a separator. *)
Lemma os_path_join_ends_with_name (root_dir name : pystr) :
  component_ok name ->
  exists pre,
    (pre = [] ∨ last pre = Some sep) ∧ os_path_join root_dir name = pre ++ name.
Proof.
  intros [Hcomp Hsep]. unfold os_path_join.
  destruct name as [|n name]; [done|].
  apply not_elem_of_cons in Hsep as [Hn _].
  cbn [startswith_sep].
  assert (Hneq : (n =? sep) = false) by (apply N.eqb_neq; congruence).
  rewrite Hneq.
  destruct root_dir as [|c root_dir]; cbn [truthy negb orb].
  - exists []. split; [by left|done].
  - unfold endswith_sep.
    destruct (last (c :: root_dir)) as [d|] eqn:Hlast.
    + destruct (N.eqb_spec d sep) as [->|Hd].
      * exists (c :: root_dir). split; [by right|done].
      * exists ((c :: root_dir) ++ [sep]). split.
        -- right. by rewrite last_snoc.
        -- by rewrite <- app_assoc.
    + exists ((c :: root_dir) ++ [sep]). split.
      * right. by rewrite last_snoc.
      * by rewrite <- app_assoc.
Qed.

(** [Path(root_dir, performer).name == performer] for every directory entry
    name, whatever the root string looks like. *)
Lemma Path_name_join (root_dir name : pystr) :
  component_ok name ->
  Path_name {| _raw_paths := [root_dir; name] |} = name.
Proof.
  intros Hname. unfold Path_name, Path_parts.
  cbn [_raw_paths posixpath_join foldl].
  destruct (os_path_join_ends_with_name root_dir name Hname)
    as (pre & Hpre & ->).
  unfold _parse_path.
  assert (Htruthy : truthy (pre ++ name) = true).
  { destruct Hname as [Hcomp _]. destruct name; [done|]. by destruct pre. }
  rewrite Htruthy. cbn [negb].
  destruct (splitroot_ends_with_name pre name Hpre Hname)
    as (pre' & Hpre' & Hrel).
  destruct (splitroot (pre ++ name)) as [root rel]. cbn [snd] in *. subst rel.
  destruct (split_ends_with_name pre' name Hpre' Hname) as (parts & ->).
  by rewrite last_snoc.
Qed.

(** ** More on the name-to-path mapping *)

Lemma build_performers_dict_lookup_None (paths : list Path) (k : pystr) :
  build_performers_dict paths !! k = None
  <-> Forall (fun p => Path_name p <> k) paths.
Proof.
  induction paths as [|p paths IH] using rev_ind.
  - unfold build_performers_dict; cbn [foldl]. rewrite lookup_empty.
    split; [constructor|done].
  - rewrite build_performers_dict_snoc, lookup_insert_None, IH.
    rewrite Forall_app, Forall_singleton. done.
Qed.

(** The last entry of a given name. *)
Lemma last_with_name (paths : list Path) (k : pystr) :
  (exists p, p ∈ paths ∧ Path_name p = k) ->
  exists l1 p l2,
    paths = l1 ++ p :: l2 ∧ Path_name p = k
    ∧ Forall (fun q => Path_name q <> k) l2.
Proof.
  induction paths as [|x paths IH] using rev_ind; intros (p & Hin & Hp).
  - by apply elem_of_nil in Hin.
  - destruct (decide (Path_name x = k)) as [Hx|Hx].
    + exists paths, x, []. by repeat split.
    + destruct IH as (l1 & p' & l2 & -> & Hp' & Hl2).
      * apply elem_of_app in Hin as [Hin|Hin]; [by exists p|].
        apply list_elem_of_singleton in Hin. congruence.
      * exists l1, p', (l2 ++ [x]). split; [by rewrite <- app_assoc|].
        split; [done|]. apply Forall_app. split; [done|]. by constructor.
Qed.

Lemma build_performers_dict_is_Some (paths : list Path) (k : pystr) :
  is_Some (build_performers_dict paths !! k)
  <-> exists p, p ∈ paths ∧ Path_name p = k.
Proof.
  split.
  - intros [v Hv].
    destruct (build_performers_dict_lookup_Some _ _ _ Hv) as (p & ? & ? & _).
    by exists p.
  - intros Hex. destruct (last_with_name _ _ Hex) as (l1 & p & l2 & -> & <- & Hl2).
    rewrite build_performers_dict_last by done. by eexists.
Qed.

(** Paths with the same string have the same base name. *)
Lemma Path_str_name (p q : Path) :
  Path_str p = Path_str q -> Path_name p = Path_name q.
Proof.
  intros H. rewrite <- (Path_name_roundtrip p), <- (Path_name_roundtrip q).
  by rewrite H.
Qed.

(** ** More on the loop *)

Section LoopReturns.
Context (performers_dict : gmap (list N) (list N)).
Context (roots : list pystr) (full : bool).

(** What an accepted visit looked like. *)
Lemma visit_Accepted_inv ev v :
  visit performers_dict full ev = Accepted v ->
  exists line stat chosen_path,
    ev = Submit line stat
    ∧ first_failing_check (strip line) = None
    ∧ performers_dict !! strip line = Some chosen_path
    ∧ exists_and_is_dir stat (Path_str {| _raw_paths := [chosen_path] |})
      = OsOk true
    ∧ v = if full then VPath {| _raw_paths := [chosen_path] |}
          else VStr (Path_name {| _raw_paths := [chosen_path] |}).
Proof.
  destruct ev as [line stat| |]; [|done..]. cbn [visit].
  destruct (first_failing_check (strip line)) eqn:Hcheck; [done|].
  destruct (performers_dict !! strip line) as [chosen_path|] eqn:Hsome; [|done].
  destruct (truthy chosen_path); cbn [negb]; [|done].
  destruct (exists_and_is_dir stat (Path_str {| _raw_paths := [chosen_path] |}))
    as [[|]| |] eqn:Hthere; [|done..].
  intros [= <-]. exists line, stat, chosen_path. done.
Qed.

(** A loop that returns has met a visit that was accepted. *)
Lemma choose_performer_loop_Ret script out v st' :
  choose_performer_loop performers_dict script (mk_state roots full out)
  = (Ret v, st') ->
  exists before ev after,
    script = before ++ ev :: after
    ∧ visit performers_dict full ev = Accepted v.
Proof.
  revert out. induction script as [|ev script IH]; intros out; [done|].
  rewrite choose_performer_loop_step.
  destruct (visit performers_dict full ev) as [w|msg| |e] eqn:Hvisit.
  - intros [= -> _]. by exists [], ev, script.
  - intros H. destruct (IH _ H) as (before & ev' & after & -> & ?).
    by exists (ev :: before), ev', after.
  - done.
  - done.
Qed.

End LoopReturns.

(** ** More on scanning *)

Section ScanningOutcome.
Context (fs : FileSystem).

(** Either every root is a directory, or there is a first one that is not. *)
Lemma roots_dirs_or_first_bad (roots : list pystr) :
  Forall (fun root_dir => os_path_isdir fs root_dir = true) roots
  ∨ exists good bad rest,
      roots = good ++ bad :: rest
      ∧ Forall (fun root_dir => os_path_isdir fs root_dir = true) good
      ∧ os_path_isdir fs bad = false.
Proof.
  induction roots as [|r roots IH]; [by left|].
  destruct (os_path_isdir fs r) eqn:Hr.
  - destruct IH as [IH|(good & bad & rest & -> & Hgood & Hbad)].
    + left. by constructor.
    + right. exists (r :: good), bad, rest. split; [done|].
      split; [by constructor|done].
  - right. by exists [], r, roots.
Qed.

Lemma get_performer_paths_all_dirs roots full out :
  Forall (fun root_dir => os_path_isdir fs root_dir = true) roots ->
  get_performer_paths fs (mk_state roots full out)
  = (Ret (roots ≫= root_entries fs),
     mk_state roots full (out ++ (roots ≫= listing_report fs))).
Proof.
  intros Hdirs. unfold get_performer_paths. rewrite bind_getattr.
  cbn [self mk_state __init__ performers_root_directories].
  by rewrite for_each_roots_ok.
Qed.

Lemma get_performer_paths_first_bad good bad rest full out :
  Forall (fun root_dir => os_path_isdir fs root_dir = true) good ->
  os_path_isdir fs bad = false ->
  get_performer_paths fs (mk_state (good ++ bad :: rest) full out)
  = (Raise (ValueError (msg_not_a_directory bad)),
     mk_state (good ++ bad :: rest) full (out ++ (good ≫= listing_report fs))).
Proof.
  intros Hgood Hbad. unfold get_performer_paths. rewrite bind_getattr.
  cbn [self mk_state __init__ performers_root_directories].
  by rewrite for_each_roots_raise.
Qed.

(** The collected entries are the paths [Path(root_dir, name)] of the names
    kept for the roots. *)
Lemma elem_of_root_entries (roots : list pystr) (p : Path) :
  p ∈ roots ≫= root_entries fs
  <-> exists root_dir name,
        root_dir ∈ roots ∧ name ∈ direct_subfolders fs root_dir
        ∧ p = {| _raw_paths := [root_dir; name] |}.
Proof.
  rewrite list_elem_of_bind. unfold root_entries. split.
  - intros (root_dir & Hp & Hroot).
    apply list_elem_of_fmap in Hp as (name & -> & Hname).
    by exists root_dir, name.
  - intros (root_dir & name & Hroot & Hname & ->).
    exists root_dir. split; [|done]. apply list_elem_of_fmap. by exists name.
Qed.

Lemma proper_listing_component_ok roots root_dir name :
  proper_listing fs roots ->
  root_dir ∈ roots -> name ∈ direct_subfolders fs root_dir ->
  component_ok name.
Proof.
  intros Hproper Hroot Hname. unfold proper_listing in Hproper.
  rewrite Forall_forall in Hproper. specialize (Hproper _ Hroot).
  rewrite Forall_forall in Hproper. auto.
Qed.

End ScanningOutcome.

(** In front of an empty mapping every submitted line is turned down with
    one message, until the input so far ends, the user interrupts, or the
    input is closed. *)
Lemma choose_performer_loop_empty roots full script out :
  exists before msgs,
    Forall is_submit before
    ∧ length msgs = length before
    ∧ Forall (fun m => m ∈ turn_down_lines) msgs
    ∧ ((script = before
        ∧ choose_performer_loop ∅ script (mk_state roots full out)
          = (Blocked, mk_state roots full (out ++ msgs)))
       ∨ (exists after,
            script = before ++ Interrupt :: after
            ∧ choose_performer_loop ∅ script (mk_state roots full out)
              = (Raise (SystemExit 1),
                 mk_state roots full (out ++ msgs ++ [msg_exiting])))
       ∨ (exists after,
            script = before ++ EndOfInput :: after
            ∧ choose_performer_loop ∅ script (mk_state roots full out)
              = (Raise EOFError, mk_state roots full (out ++ msgs)))).
Proof.
  revert out. induction script as [|ev script IH]; intros out.
  - exists [], []. split; [constructor|]. split; [done|].
    split; [constructor|]. left. by rewrite app_nil_r.
  - rewrite choose_performer_loop_step. destruct ev as [line stat| |].
    + assert (Hrej : exists m, m ∈ turn_down_lines
                               ∧ visit ∅ full (Submit line stat) = Rejected m).
      { cbn [visit].
        destruct (first_failing_check (strip line)) as [m|] eqn:Hcheck.
        - exists m. split; [|done].
          apply first_failing_check_lines in Hcheck.
          unfold turn_down_lines. rewrite !elem_of_cons in *. tauto.
        - exists msg_invalid_choice. rewrite lookup_empty.
          split; [|done]. unfold turn_down_lines.
          rewrite !elem_of_cons. tauto. }
      destruct Hrej as (m & Hm & ->).
      destruct (IH (out ++ [m])) as (before & msgs & Hsub & Hlen & Hmsgs & Hrun).
      exists (Submit line stat :: before), (m :: msgs).
      split; [by constructor|]. split; [cbn; by rewrite Hlen|].
      split; [by constructor|].
      rewrite <- !app_assoc in Hrun. cbn [app] in Hrun.
      destruct Hrun as [[-> Hrun]|[(after & -> & Hrun)|(after & -> & Hrun)]].
      * by left.
      * right. left. by exists after.
      * right. right. by exists after.
    + exists [], []. split; [constructor|]. split; [done|].
      split; [constructor|]. right. left. by exists script.
    + exists [], []. split; [constructor|]. split; [done|].
      split; [constructor|]. right. right. exists script.
      by rewrite app_nil_r.
Qed.

(** ** The entry point *)

(** X1: [main], which configures no root directory, never prints a
    selection, whatever the file system and whatever is typed.  It scans
    nothing and prints nothing for the scan; every line submitted is turned
    down with exactly one line, a validation message or "invalid choice";
    and the run is still waiting at the prompt, or at the first interrupt
    has printed the notice and exits with status 1, or at the end of the
    input ends with the uncaught [EOFError]. *)
Theorem main_never_selects fs script st :
  (forall u, fst (main fs script st) <> Ret u)
  ∧ exists before msgs,
      Forall is_submit before
      ∧ length msgs = length before
      ∧ Forall (fun m => m ∈ turn_down_lines) msgs
      ∧ ((script = before
          ∧ main fs script st
            = (Blocked, mk_state [] true (stdout st ++ msgs)))
         ∨ (exists after,
              script = before ++ Interrupt :: after
              ∧ main fs script st
                = (Raise (SystemExit 1),
                   mk_state [] true (stdout st ++ msgs ++ [msg_exiting])))
         ∨ (exists after,
              script = before ++ EndOfInput :: after
              ∧ main fs script st
                = (Raise EOFError, mk_state [] true (stdout st ++ msgs)))).
Proof.
  assert (Hmain : main fs script st
                  = (chosen_path <- choose_performer [] script ;;
                     print (value_str chosen_path))
                      (mk_state [] true (stdout st))).
  { unfold main. unfold bind at 1. unfold construct.
    fold (mk_state [] true (stdout st)). unfold bind at 1.
    rewrite get_performer_paths_all_dirs by constructor.
    cbn [mbind list_bind app]. by rewrite app_nil_r. }
  rewrite Hmain. unfold bind, choose_performer.
  change (build_performers_dict []) with (∅ : gmap (list N) (list N)).
  destruct (choose_performer_loop_empty [] true script (stdout st))
    as (before & msgs & Hsub & Hlen & Hmsgs
        & [[-> Hrun]|[(after & -> & Hrun)|(after & -> & Hrun)]]);
    rewrite Hrun; (split; [done|]); exists before, msgs;
    (split; [done|]); (split; [done|]); (split; [done|]).
  - by left.
  - right. left. by exists after.
  - right. right. by exists after.
Qed.

(** ** Scanning, as a whole *)

(** X2: [get_performer_paths] returns exactly when every configured root is
    a directory.  Otherwise it raises [ValueError] for the first root that
    is not one, having printed the reports of the roots before it only:
    the roots after it are not looked at, and what was collected is lost
    with the exception. *)
Theorem scan_returns_iff_all_directories fs roots full out :
  ((exists entries st',
       get_performer_paths fs (mk_state roots full out) = (Ret entries, st'))
   <-> Forall (fun root_dir => os_path_isdir fs root_dir = true) roots)
  ∧ (forall good bad rest,
        roots = good ++ bad :: rest ->
        Forall (fun root_dir => os_path_isdir fs root_dir = true) good ->
        os_path_isdir fs bad = false ->
        get_performer_paths fs (mk_state roots full out)
        = (Raise (ValueError (msg_not_a_directory bad)),
           mk_state roots full (out ++ (good ≫= listing_report fs)))).
Proof.
  split.
  - split.
    + intros (entries & st' & Hrun).
      destruct (roots_dirs_or_first_bad fs roots)
        as [Hdirs|(good & bad & rest & -> & Hgood & Hbad)]; [done|].
      by rewrite get_performer_paths_first_bad in Hrun.
    + intros Hdirs. rewrite get_performer_paths_all_dirs by done. eauto.
  - intros good bad rest -> Hgood Hbad.
    by apply get_performer_paths_first_bad.
Qed.

Lemma scan_returns_iff_all_directories_witness :
  get_performer_paths fs_failing_roots
    (mk_state [py "locked"; py "notes.txt"; py "broken"] true [])
  = (Raise (ValueError (msg_not_a_directory (py "notes.txt"))),
     mk_state [py "locked"; py "notes.txt"; py "broken"] true
       [py "Permission error accessing 'locked'"]).
Proof.
  destruct (scan_returns_iff_all_directories fs_failing_roots
              [py "locked"; py "notes.txt"; py "broken"] true [])
    as [_ Hbad].
  rewrite (Hbad [py "locked"] (py "notes.txt") [py "broken"]).
  - by vm_compute.
  - reflexivity.
  - apply forallb_Forall. by vm_compute.
  - by vm_compute.
Defined.

(** ** Scanning and choosing together *)

(** The mapping built from a scan maps a kept name to its path under the
    last root that holds it. *)
Lemma scanned_mapping_last_root fs (roots1 roots2 : list pystr) r name :
  proper_listing fs (roots1 ++ r :: roots2) ->
  name ∈ direct_subfolders fs r ->
  Forall (fun r' => name ∉ direct_subfolders fs r') roots2 ->
  build_performers_dict ((roots1 ++ r :: roots2) ≫= root_entries fs) !! name
  = Some (Path_str {| _raw_paths := [r; name] |}).
Proof.
  intros Hproper Hname Hlater.
  assert (Hok : forall r' n,
             r' ∈ roots1 ++ r :: roots2 -> n ∈ direct_subfolders fs r' ->
             Path_name {| _raw_paths := [r'; n] |} = n).
  { intros r' n Hr' Hn. apply Path_name_join.
    by eapply proper_listing_component_ok. }
  destruct (list_elem_of_split_r _ _ Hname) as (n1 & n2 & Hsplit & Hn2).
  assert (Hentries :
            (roots1 ++ r :: roots2) ≫= root_entries fs
            = ((roots1 ≫= root_entries fs)
                 ++ ((fun performer => {| _raw_paths := [r; performer] |})
                       <$> n1))
                ++ {| _raw_paths := [r; name] |}
                :: (((fun performer => {| _raw_paths := [r; performer] |})
                       <$> n2)
                      ++ (roots2 ≫= root_entries fs))).
  { rewrite bind_app, bind_cons. unfold root_entries at 2.
    rewrite Hsplit, fmap_app, fmap_cons. by rewrite <- !app_assoc. }
  assert (Hp : Path_name {| _raw_paths := [r; name] |} = name).
  { apply Hok; [|done]. apply elem_of_app. right. by left. }
  assert (Htail :
            Forall (fun q => Path_name q
                             <> Path_name {| _raw_paths := [r; name] |})
              (((fun performer => {| _raw_paths := [r; performer] |}) <$> n2)
                 ++ (roots2 ≫= root_entries fs))).
  { rewrite Hp. apply Forall_app. split.
    - apply Forall_forall. intros q Hq.
      apply list_elem_of_fmap in Hq as (n & -> & Hn).
      rewrite Hok; [congruence|apply elem_of_app; right; by left|].
      rewrite Hsplit. apply elem_of_app. right. by right.
    - apply Forall_forall. intros q Hq.
      apply elem_of_root_entries in Hq as (r' & n & Hr' & Hn & ->).
      rewrite Hok; [|apply elem_of_app; right; by right|done].
      intros ->. rewrite Forall_forall in Hlater. by apply (Hlater r'). }
  pose proof (build_performers_dict_last
                ((roots1 ≫= root_entries fs)
                   ++ ((fun performer => {| _raw_paths := [r; performer] |})
                         <$> n1))
                _ _ Htail) as Hlast.
  rewrite Hp in Hlast. rewrite Hentries. apply Hlast.
Qed.

(** X3: a subfolder that the scan has kept can be chosen.  When every root
    is a directory, the kept names are directory entry names, the user
    types (with or without surrounding white space) a kept name that passes
    validation, and the directory of that name under the last root that
    holds it is there when it is checked, then scanning followed by
    choosing returns at once: the name itself, or the path of that name
    under that root. *)
Theorem listed_name_is_accepted fs roots1 r roots2 full out name line stat script :
  let roots := roots1 ++ r :: roots2 in
  Forall (fun root_dir => os_path_isdir fs root_dir = true) roots ->
  proper_listing fs roots ->
  name ∈ direct_subfolders fs r ->
  Forall (fun r' => name ∉ direct_subfolders fs r') roots2 ->
  strip line = name ->
  valid_name_spec name ->
  path_exists stat (Path_str {| _raw_paths := [r; name] |}) = OsOk true ->
  path_is_dir stat (Path_str {| _raw_paths := [r; name] |}) = OsOk true ->
  (performers_paths <- get_performer_paths fs ;;
   choose_performer performers_paths (Submit line stat :: script))
    (mk_state roots full out)
  = (Ret (if full
          then VPath {| _raw_paths := [Path_str {| _raw_paths := [r; name] |}] |}
          else VStr name),
     mk_state roots full (out ++ (roots ≫= listing_report fs))).
Proof.
  intros roots Hdirs Hproper Hname Hlater Hline Hvalid Hexists Hisdir.
  pose proof (scanned_mapping_last_root fs roots1 roots2 r name
                Hproper Hname Hlater) as Hlookup.
  fold roots in Hlookup.
  unfold bind. rewrite get_performer_paths_all_dirs by done.
  unfold choose_performer. rewrite choose_performer_loop_step. cbn [visit].
  rewrite Hline. apply first_failing_check_None in Hvalid. rewrite Hvalid.
  rewrite Hlookup. rewrite Path_str_truthy. cbn [negb].
  unfold exists_and_is_dir. rewrite Path_str_roundtrip, Hexists, Hisdir.
  rewrite Path_name_roundtrip, Path_name_join; [done|].
  eapply proper_listing_component_ok; [exact Hproper| |exact Hname].
  apply elem_of_app. right. by left.
Qed.

Lemma two_roots_proper_listing :
  Forall (fun root_dir => os_path_isdir fs_two_roots root_dir = true)
         [py "R1"; py "R2"]
  ∧ proper_listing fs_two_roots [py "R1"; py "R2"].
Proof.
  split; [apply forallb_Forall; by vm_compute|].
  unfold proper_listing.
  assert (Hok : forall x, x ∈ [py "Alice"; py "Bob"] -> component_ok x).
  { intros x Hx. rewrite !elem_of_cons in Hx.
    destruct Hx as [->|[->|Hx]]; [| |by apply elem_of_nil in Hx];
      (split; [by vm_compute|apply (bool_decide_unpack _); by vm_compute]). }
  constructor; [|constructor; [|constructor]].
  - replace (direct_subfolders fs_two_roots (py "R1")) with [py "Alice"]
      by (by vm_compute).
    constructor; [|constructor]. apply Hok. by left.
  - replace (direct_subfolders fs_two_roots (py "R2")) with [py "Bob"]
      by (by vm_compute).
    constructor; [|constructor]. apply Hok. right. by left.
Qed.

Lemma listed_name_is_accepted_witness :
  fst ((performers_paths <- get_performer_paths fs_two_roots ;;
        choose_performer performers_paths [Submit (py "  Bob ") two_roots_view])
         (mk_state [py "R1"; py "R2"] true []))
  = Ret (VPath {| _raw_paths := [py "R2/Bob"] |}).
Proof.
  destruct two_roots_proper_listing as [Hdirs Hproper].
  assert (Hname : py "Bob" ∈ direct_subfolders fs_two_roots (py "R2"))
    by (apply (bool_decide_unpack _); by vm_compute).
  assert (Hvalid : valid_name_spec (py "Bob"))
    by (apply first_failing_check_None; by vm_compute).
  assert (Hline : strip (py "  Bob ") = py "Bob") by (by vm_compute).
  assert (Hexists : path_exists two_roots_view
                      (Path_str {| _raw_paths := [py "R2"; py "Bob"] |})
                    = OsOk true) by (by vm_compute).
  assert (Hisdir : path_is_dir two_roots_view
                     (Path_str {| _raw_paths := [py "R2"; py "Bob"] |})
                   = OsOk true) by (by vm_compute).
  exact (f_equal fst
           (listed_name_is_accepted fs_two_roots [py "R1"] (py "R2") []
              true [] (py "Bob") (py "  Bob ") two_roots_view []
              Hdirs Hproper Hname (Forall_nil_2 _) Hline Hvalid
              Hexists Hisdir)).
Defined.

(** X4: what the user can choose was found by the scan.  When the kept
    names are directory entry names and scanning followed by choosing
    returns, then every root is a directory, and the trimmed form of some
    submitted line is a name kept for one of the roots; the value returned
    is that name, or the path of that name under that root. *)
Theorem accepted_name_was_listed fs roots full out script v st' :
  proper_listing fs roots ->
  (performers_paths <- get_performer_paths fs ;;
   choose_performer performers_paths script) (mk_state roots full out)
  = (Ret v, st') ->
  Forall (fun root_dir => os_path_isdir fs root_dir = true) roots
  ∧ exists r name before line stat after,
      script = before ++ Submit line stat :: after
      ∧ r ∈ roots
      ∧ name ∈ direct_subfolders fs r
      ∧ strip line = name
      ∧ v = if full
            then VPath {| _raw_paths :=
                            [Path_str {| _raw_paths := [r; name] |}] |}
            else VStr name.
Proof.
  intros Hproper Hrun. unfold bind in Hrun.
  destruct (roots_dirs_or_first_bad fs roots)
    as [Hdirs|(good & bad & rest & -> & Hgood & Hbad)].
  2:{ by rewrite get_performer_paths_first_bad in Hrun. }
  split; [done|].
  rewrite get_performer_paths_all_dirs in Hrun by done.
  apply choose_performer_loop_Ret in Hrun
    as (before & ev & after & -> & Hvisit).
  apply visit_Accepted_inv in Hvisit
    as (line & stat & chosen_path & -> & _ & Hsome & _ & ->).
  destruct (build_performers_dict_lookup_Some _ _ _ Hsome)
    as (p & Hin & Hname & <-).
  apply elem_of_root_entries in Hin as (r & name & Hr & Hn & ->).
  rewrite Path_name_join in Hname
    by by eapply proper_listing_component_ok.
  exists r, name, before, line, stat, after.
  split; [done|]. split; [done|]. split; [done|]. split; [done|].
  destruct full; [done|].
  rewrite Path_name_roundtrip, Path_name_join; [done|].
  by eapply proper_listing_component_ok.
Qed.

Lemma accepted_name_was_listed_witness :
  Forall (fun root_dir => os_path_isdir fs_two_roots root_dir = true)
         [py "R1"; py "R2"]
  ∧ exists r name before line stat after,
      four_bad_visits ++ [Submit (py " Bob ") all_present]
      = before ++ Submit line stat :: after
      ∧ r ∈ [py "R1"; py "R2"]
      ∧ name ∈ direct_subfolders fs_two_roots r
      ∧ strip line = name
      ∧ VStr (py "Bob") = VStr name.
Proof.
  destruct two_roots_proper_listing as [_ Hproper].
  apply (accepted_name_was_listed fs_two_roots [py "R1"; py "R2"] false []
           (four_bad_visits ++ [Submit (py " Bob ") all_present])
           (VStr (py "Bob"))
           (mk_state [py "R1"; py "R2"] false
              [msg_empty; msg_invalid_characters; msg_invalid_choice;
               msg_does_not_exist])
           Hproper).
  by vm_compute.
Defined.

(** ** What can and what cannot be chosen *)

(** X5: whatever [choose_performer] returns stands for a name that passes
    validation and has no surrounding white space, and that is the base
    name of a collected entry.  So an entry whose directory name contains a
    character outside the allowed set, is longer than 100 characters, or
    begins or ends with white space can never be chosen. *)
Theorem returned_name_is_valid_and_trimmed paths script roots full out v st' :
  choose_performer paths script (mk_state roots full out) = (Ret v, st') ->
  valid_name_spec (value_name v)
  ∧ strip (value_name v) = value_name v
  ∧ exists p, p ∈ paths ∧ Path_name p = value_name v.
Proof.
  intros Hrun. unfold choose_performer in Hrun.
  apply choose_performer_loop_Ret in Hrun
    as (before & ev & after & -> & Hvisit).
  apply visit_Accepted_inv in Hvisit
    as (line & stat & chosen_path & -> & Hcheck & Hsome & _ & ->).
  destruct (build_performers_dict_lookup_Some _ _ _ Hsome)
    as (p & Hin & Hname & <-).
  assert (Hv : value_name
                 (if full then VPath {| _raw_paths := [Path_str p] |}
                  else VStr (Path_name {| _raw_paths := [Path_str p] |}))
               = strip line).
  { destruct full; cbn [value_name]; by rewrite Path_name_roundtrip. }
  rewrite Hv. split; [by apply first_failing_check_None|].
  split; [apply strip_idem|]. by exists p.
Qed.

Lemma returned_name_is_valid_and_trimmed_witness :
  valid_name_spec (py "Bob")
  ∧ strip (py "Bob") = py "Bob"
  ∧ exists p, p ∈ two_entries ∧ Path_name p = py "Bob".
Proof.
  apply (returned_name_is_valid_and_trimmed two_entries
           (four_bad_visits ++ [Submit (py " Bob ") all_present])
           [py "R1"; py "R2"] true []
           (VPath {| _raw_paths := [py "R2/Bob"] |})
           (mk_state [py "R1"; py "R2"] true
              [msg_empty; msg_invalid_characters; msg_invalid_choice;
               msg_does_not_exist])).
  by vm_compute.
Defined.

(** X6: of two collected entries with the same base name and different
    paths, only the later one can be chosen: when [q] is the last entry of
    its name and [p] is an entry of the same name with another path string,
    no session returns the path of [p]. *)
Theorem shadowed_entry_is_never_returned (l1 l2 : list Path) (p q : Path)
    script roots full out v st' :
  p ∈ l1 ->
  Path_name p = Path_name q ->
  Path_str p <> Path_str q ->
  Forall (fun e => Path_name e <> Path_name q) l2 ->
  choose_performer (l1 ++ q :: l2) script (mk_state roots full out)
  = (Ret v, st') ->
  forall r, v = VPath r -> Path_str r <> Path_str p.
Proof.
  intros Hp Hname Hstr Hl2 Hrun r -> Heq.
  unfold choose_performer in Hrun.
  apply choose_performer_loop_Ret in Hrun
    as (before & ev & after & -> & Hvisit).
  apply visit_Accepted_inv in Hvisit
    as (line & stat & chosen_path & -> & _ & Hsome & _ & Hv).
  destruct full; [|done]. injection Hv as ->.
  destruct (build_performers_dict_lookup_Some _ _ _ Hsome)
    as (e & _ & Hline & <-).
  rewrite Path_str_roundtrip in Heq.
  rewrite <- Hline, (Path_str_name _ _ Heq), Hname in Hsome.
  rewrite build_performers_dict_last in Hsome by done.
  congruence.
Qed.

Lemma shadowed_entry_is_never_returned_witness :
  Path_str {| _raw_paths := [py "R2/Sam"] |}
  <> Path_str {| _raw_paths := [py "R1"; py "Sam"] |}.
Proof.
  apply (shadowed_entry_is_never_returned
           [ {| _raw_paths := [py "R1"; py "Sam"] |} ] []
           {| _raw_paths := [py "R1"; py "Sam"] |}
           {| _raw_paths := [py "R2"; py "Sam"] |}
           [Submit (py "Sam") all_present] [py "R1"; py "R2"] true []
           (VPath {| _raw_paths := [py "R2/Sam"] |})
           (mk_state [py "R1"; py "R2"] true [])).
  - by left.
  - by vm_compute.
  - apply (bool_decide_unpack _). by vm_compute.
  - constructor.
  - by vm_compute.
  - reflexivity.
Defined.

(** X7: for a submitted line whose trimmed form passes validation, the
    loop prints "invalid choice" and goes back to the prompt exactly when
    no collected entry has that base name. *)
Theorem invalid_choice_iff_no_entry paths line stat roots full out :
  valid_name_spec (strip line) ->
  choose_performer paths [Submit line stat] (mk_state roots full out)
  = (Blocked, mk_state roots full (out ++ [msg_invalid_choice]))
  <-> Forall (fun p => Path_name p <> strip line) paths.
Proof.
  intros Hvalid. apply first_failing_check_None in Hvalid.
  rewrite <- build_performers_dict_lookup_None.
  unfold choose_performer. rewrite choose_performer_loop_step. cbn [visit].
  rewrite Hvalid.
  destruct (build_performers_dict paths !! strip line) as [chosen_path|]
    eqn:Hsome; [|done].
  destruct (build_performers_dict_lookup_Some _ _ _ Hsome)
    as (p & _ & _ & <-).
  rewrite Path_str_truthy. cbn [negb].
  destruct (exists_and_is_dir stat
              (Path_str {| _raw_paths := [Path_str p] |})) as [[|]|m|m].
  - split; discriminate.
  - split; [|discriminate]. cbn [choose_performer_loop blocked].
    intros [= H]. apply app_inv_head in H. injection H as H.
    exfalso. revert H. apply (bool_decide_unpack _). by vm_compute.
  - split; discriminate.
  - split; discriminate.
Qed.

Lemma invalid_choice_iff_no_entry_witness :
  choose_performer two_entries [Submit (py "Carol") all_present]
    (mk_state [py "R1"; py "R2"] true [])
  = (Blocked, mk_state [py "R1"; py "R2"] true ([] ++ [msg_invalid_choice])).
Proof.
  apply (invalid_choice_iff_no_entry two_entries (py "Carol") all_present
           [py "R1"; py "R2"] true []).
  - apply first_failing_check_None. by vm_compute.
  - apply (bool_decide_unpack _). by vm_compute.
Defined.

(** X8: the keys of the mapping built from a scan are the kept subfolder
    names: when every root is a directory and the kept names are directory
    entry names, a name is a key exactly when the listing of some root
    keeps it. *)
Theorem scanned_mapping_keys fs roots full out :
  Forall (fun root_dir => os_path_isdir fs root_dir = true) roots ->
  proper_listing fs roots ->
  exists entries st',
    get_performer_paths fs (mk_state roots full out) = (Ret entries, st')
    ∧ dom (build_performers_dict entries)
      = list_to_set (roots ≫= direct_subfolders fs).
Proof.
  intros Hdirs Hproper. eexists _, _.
  split; [by apply get_performer_paths_all_dirs|].
  apply set_eq. intros k.
  rewrite elem_of_dom, build_performers_dict_is_Some, elem_of_list_to_set.
  rewrite list_elem_of_bind. split.
  - intros (p & Hin & <-).
    apply elem_of_root_entries in Hin as (r & name & Hr & Hn & ->).
    exists r. split; [|done]. rewrite Path_name_join; [done|].
    by eapply proper_listing_component_ok.
  - intros (r & Hk & Hr). exists {| _raw_paths := [r; k] |}. split.
    + apply elem_of_root_entries. by exists r, k.
    + apply Path_name_join. by eapply proper_listing_component_ok.
Qed.

Lemma scanned_mapping_keys_witness :
  exists entries st',
    get_performer_paths fs_two_roots (mk_state [py "R1"; py "R2"] true [])
    = (Ret entries, st')
    ∧ dom (build_performers_dict entries)
      = list_to_set ([py "R1"; py "R2"] ≫= direct_subfolders fs_two_roots).
Proof.
  destruct two_roots_proper_listing as [Hdirs Hproper].
  exact (scanned_mapping_keys fs_two_roots [py "R1"; py "R2"] true []
           Hdirs Hproper).
Defined.

(** X9: a name that passes validation is made of printable ASCII
    characters only and contains neither ["/"] nor a backslash (code point
    92). *)
Theorem accepted_name_is_plain_ascii roots full out (name : pystr) :
  fst (_is_valid_performer_name name (mk_state roots full out)) = Ret true ->
  Forall (fun c => 32 <= c < 127 ∧ c <> sep ∧ c <> 92) name.
Proof.
  rewrite _is_valid_performer_name_run.
  destruct (first_failing_check name) eqn:Hcheck; [done|]. intros _.
  apply first_failing_check_None in Hcheck as (_ & Hall & _).
  eapply Forall_impl; [exact Hall|]. intros c Hc. cbv beta in Hc.
  unfold spec_allowed_char, in_range in Hc. eval_chr_in Hc.
  rewrite !orb_true_iff, !andb_true_iff, !N.leb_le, !N.eqb_eq in Hc.
  change sep with 47. lia.
Qed.

Lemma accepted_name_is_plain_ascii_witness :
  Forall (fun c => 32 <= c < 127 ∧ c <> sep ∧ c <> 92) (py "Sam (1)_[x]-2.0").
Proof.
  apply (accepted_name_is_plain_ascii [] true [] (py "Sam (1)_[x]-2.0")).
  by vm_compute.
Defined.

(** A visit that the loop turns down, in front of a mapping built from
    collected entries, is turned down for one of the three reasons. *)
Lemma visit_Rejected_rejected paths full ev msg :
  visit (build_performers_dict paths) full ev = Rejected msg ->
  rejected (build_performers_dict paths) ev msg.
Proof.
  destruct ev as [line stat| |]; [|done..]. cbn [visit].
  destruct (first_failing_check (strip line)) as [m|] eqn:Hcheck.
  { intros [= <-]. by apply rejected_invalid. }
  apply first_failing_check_None in Hcheck.
  destruct (build_performers_dict paths !! strip line) as [chosen_path|]
    eqn:Hsome.
  2:{ intros [= <-]. by apply rejected_unknown. }
  destruct (build_performers_dict_lookup_Some _ _ _ Hsome)
    as (p & _ & _ & <-).
  rewrite Path_str_truthy. cbn [negb].
  destruct (exists_and_is_dir stat
              (Path_str {| _raw_paths := [Path_str p] |}))
    as [[|]|m|m] eqn:Hthere; [done| |done..].
  intros [= <-]. eapply rejected_stale; [done..|apply Path_str_truthy|done].
Qed.

(** X10: every run of [choose_performer] is a run of rejected lines, each
    of which prints exactly its one message, followed by one of five
    endings: the end of the input so far (the loop waits); an interrupt
    (the notice is printed and the process exits with status 1); the end of
    the input at the prompt (the [EOFError] is not caught); a line whose
    trimmed form is valid and a key of the mapping, for which [exists()] or
    [is_dir()] raises (the [OSError] is not caught); or such a line whose
    mapped path is an existing directory (the value is returned).  Nothing
    is printed for the last three, and the visits after the one that ends
    the loop play no part. *)
Theorem choose_performer_trace paths roots full out script :
  let d := build_performers_dict paths in
  let run := choose_performer paths script (mk_state roots full out) in
  exists before msgs,
    Forall2 (rejected d) before msgs
    ∧ ((script = before
        ∧ run = (Blocked, mk_state roots full (out ++ msgs)))
       ∨ (exists after,
            script = before ++ Interrupt :: after
            ∧ run = (Raise (SystemExit 1),
                     mk_state roots full (out ++ msgs ++ [msg_exiting])))
       ∨ (exists after,
            script = before ++ EndOfInput :: after
            ∧ run = (Raise EOFError, mk_state roots full (out ++ msgs)))
       ∨ (exists line stat after chosen_path e,
            script = before ++ Submit line stat :: after
            ∧ valid_name_spec (strip line)
            ∧ d !! strip line = Some chosen_path
            ∧ os_exn (exists_and_is_dir stat chosen_path) = Some e
            ∧ run = (Raise e, mk_state roots full (out ++ msgs)))
       ∨ (exists line stat after chosen_path,
            script = before ++ Submit line stat :: after
            ∧ valid_name_spec (strip line)
            ∧ d !! strip line = Some chosen_path
            ∧ exists_and_is_dir stat chosen_path = OsOk true
            ∧ run = (Ret (if full
                          then VPath {| _raw_paths := [chosen_path] |}
                          else VStr (strip line)),
                     mk_state roots full (out ++ msgs)))).
Proof.
  intros d run. unfold run, choose_performer. fold d. clear run.
  revert out. induction script as [|ev script IH]; intros out.
  - exists [], []. split; [constructor|]. left. by rewrite app_nil_r.
  - rewrite choose_performer_loop_step.
    destruct (visit d full ev) as [v|msg| |e] eqn:Hvisit.
    + exists [], []. split; [constructor|]. do 4 right.
      apply visit_Accepted_inv in Hvisit
        as (line & stat & chosen_path & -> & Hcheck & Hsome & Hthere & ->).
      destruct (build_performers_dict_lookup_Some _ _ _ Hsome)
        as (p & _ & Hname & <-).
      rewrite Path_str_roundtrip in Hthere.
      exists line, stat, script, (Path_str p).
      split; [done|]. split; [by apply first_failing_check_None|].
      split; [done|]. split; [done|].
      by rewrite Path_name_roundtrip, Hname, app_nil_r.
    + apply visit_Rejected_rejected in Hvisit.
      destruct (IH (out ++ [msg])) as (before & msgs & Hrej & Hrun).
      exists (ev :: before), (msg :: msgs). split; [by constructor|].
      rewrite <- !app_assoc in Hrun. cbn [app] in Hrun.
      destruct Hrun
        as [[-> Hrun]
           |[(after & -> & Hrun)
            |[(after & -> & Hrun)
             |[(line & stat & after & chosen_path & e & -> & Hrest)
              |(line & stat & after & chosen_path & -> & Hrest)]]]].
      * by left.
      * right. left. by exists after.
      * do 2 right. left. by exists after.
      * do 3 right. left. by exists line, stat, after, chosen_path, e.
      * do 4 right. by exists line, stat, after, chosen_path.
    + apply visit_Cancelled in Hvisit as ->.
      exists [], []. split; [constructor|]. right. left. by exists script.
    + exists [], []. split; [constructor|].
      apply visit_Crashed in Hvisit
        as [[-> ->]|(line & stat & chosen_path & -> & Hcheck & Hsome & Hexn)].
      * do 2 right. left. exists script. by rewrite app_nil_r.
      * do 3 right. left.
        destruct (build_performers_dict_lookup_Some _ _ _ Hsome)
          as (p & _ & _ & <-).
        rewrite Path_str_roundtrip in Hexn.
        exists line, stat, script, (Path_str p), e.
        split; [done|]. split; [by apply first_failing_check_None|].
        split; [done|]. split; [done|]. by rewrite app_nil_r.
Qed.
